(** * capsule: the IB market-data client (ibmarketdata.py)

    A shallow embedding of the request-correlation engine of
    [src/ibmarketdata.py]: the retry decorator [Utils.reliable], the
    request-id allocator, the pending-request dictionaries of [IbApp], its
    reply handlers, the resync path [IbApp.verify] and the message loop
    [InterruptableClient.runnable].

    Python integers are unbounded and are modelled by [Z]; a [dict] is an
    insertion-ordered association list; a method that mutates [self],
    raises, logs and sends requests is a function from the receiver to an
    outcome, the new receiver and the events it emitted. *)

From Equations Require Import Equations.
From Stdlib Require Import ZArith List String Bool Lia Arith Sorted.
From Stdlib.Strings Require Import Byte.
Import ListNotations.
Open Scope Z_scope.

Set Implicit Arguments.

(* ===================================================================== *)
(** ** Utils.reliable: retry with exponential backoff *)
(* ===================================================================== *)

Module Utils.

(** What the decorator does to the outside world: it invokes the wrapped
    function and it sleeps. *)
Inductive step : Type :=
| Invoke
| Sleep (d : Z).

Definition is_invoke (e : step) : bool :=
  match e with Invoke => true | Sleep _ => false end.

Definition sleep_of (e : step) : Z :=
  match e with Invoke => 0 | Sleep d => d end.

Definition invocations (tr : list step) : nat :=
  List.length (filter is_invoke tr).

Definition slept (tr : list step) : Z :=
  fold_right Z.add 0 (map sleep_of tr).

(** The delays of the trace, in the order they were slept. *)
Fixpoint delays (tr : list step) : list Z :=
  match tr with
  | [] => []
  | Invoke :: tr' => delays tr'
  | Sleep d :: tr' => d :: delays tr'
  end.

Section Reliable.
Context {A W : Type}.

(** The wrapped operation: [func(self, *args, **kwargs)] reads and
    changes a world [W] and returns a value or [None]. *)
Variable func : W -> option A * W.

(** The local variables of [_decorator] while the loop runs. *)
Record locals : Type := Locals {
  tries : Z;
  result : option A;
  world : W;
  trace : list step
}.

(** Iterations the loop can still make: it stops at [tries = 10]. *)
Definition budget (l : locals) : nat := Z.to_nat (10 - tries l).
Arguments budget : simpl never.

(** [while result is None and tries < 10:
       tries += 1; time.sleep(2 ** tries); result = func(...)] *)
Equations? while_loop (l : locals) : locals
  by wf (budget l) lt :=
  while_loop l with result l := {
    | Some _ := l;
    | None with Z_lt_dec (tries l) 10 := {
        | right _ := l;
        | left _ :=
            while_loop
              (Locals (tries l + 1)
                      (fst (func (world l)))
                      (snd (func (world l)))
                      (trace l ++ [Sleep (2 ^ (tries l + 1)); Invoke])) } }.
Proof. unfold budget. cbn [tries]. lia. Qed.

(** [_decorator]: one call, then the loop when the call gave [None]. *)
Definition reliable (s : W) : locals :=
  let l := Locals 0 (fst (func s)) (snd (func s)) [Invoke] in
  match result l with
  | None => while_loop l
  | Some _ => l
  end.

(** The world after [n] invocations, and what the next one returns. *)
Fixpoint after (n : nat) (s : W) : W :=
  match n with
  | O => s
  | S m => after m (snd (func s))
  end.

Definition answer (n : nat) (s : W) : option A := fst (func (after n s)).

(** Sleeps and invocations of retries [t+1 .. t+n]. *)
Fixpoint backoff (t : Z) (n : nat) : list step :=
  match n with
  | O => []
  | S m => Sleep (2 ^ (t + 1)) :: Invoke :: backoff (t + 1) m
  end.

End Reliable.

(** Test doubles for the wrapped operation.  The world of a stub is the
    number of times it has been invoked. *)
Definition never : nat -> option Z * nat :=
  fun n => (None, S n).

Definition stub (k : nat) (v : Z) : nat -> option Z * nat :=
  fun n => (if (n <? k)%nat then None else Some v, S n).

End Utils.

(* ===================================================================== *)
(** ** Python dictionaries keyed by request id *)
(* ===================================================================== *)

(** A [dict] keeps its items in insertion order; assigning to a key that is
    present keeps the key's position, deleting a key removes its item. *)
Module Dict.
Section Dict.
Context {V : Type}.

Definition t : Type := list (Z * V).

Definition empty : t := [].

(** [d[k]], [None] standing for [KeyError]. *)
Fixpoint get (k : Z) (d : t) : option V :=
  match d with
  | [] => None
  | (k', v) :: d' => if k =? k' then Some v else get k d'
  end.

(** [k in d] *)
Definition mem (k : Z) (d : t) : bool :=
  match get k d with Some _ => true | None => false end.

(** [d[k] = v] *)
Fixpoint set (k : Z) (v : V) (d : t) : t :=
  match d with
  | [] => [(k, v)]
  | (k', v') :: d' =>
      if k =? k' then (k, v) :: d' else (k', v') :: set k v d'
  end.

(** [del d[k]] (the callers test [k in d] first) *)
Definition del (k : Z) (d : t) : t :=
  filter (fun kv => negb (k =? fst kv)) d.

(** [d.items()], [d.keys()], [len(d)] *)
Definition items (d : t) : list (Z * V) := d.
Definition keys (d : t) : list Z := map fst d.
Definition len (d : t) : nat := List.length d.

End Dict.
Arguments t : clear implicits.
End Dict.

(* ===================================================================== *)
(** ** Data of the gateway API *)
(* ===================================================================== *)

(** A Python [float], carried by its IEEE-754 bit pattern: the client
    forwards prices and never computes with them. *)
Record float : Type := Float { bits : Z }.

(** [ibapi.contract.Contract], the fields this client reads or writes. *)
Record Contract : Type := mkContract {
  symbol : string;
  secType : string;
  exchange : string;
  tradingClass : string;
  lastTradeDateOrContractMonth : string;
  localSymbol : string
}.

(** [Contract()]: every string field starts empty. *)
Definition Contract_new : Contract :=
  mkContract EmptyString EmptyString EmptyString EmptyString
             EmptyString EmptyString.

Record ContractDetails : Type := mkContractDetails {
  summary : Contract;
  marketName : string
}.

Record BarData : Type := mkBarData {
  date : string;
  open : float;
  high : float;
  low : float;
  close : float;
  volume : Z;
  barCount : Z
}.

(** An item of the [Securities] table, as [start] reads it. *)
Record Security : Type := mkSecurity {
  Symbol : string;
  ProductType : string;
  Exchange : string;            (* sec['Description']['Exchange'] *)
  SubscriptionEnabled : bool
}.

(* ===================================================================== *)
(** ** Exceptions and observable events *)
(* ===================================================================== *)

Inductive exn : Type :=
| KeyError (key : Z)
| TypeError
| KeyboardInterrupt
| SystemExit
| BadMessage
| Exception (what : string).

Inductive level : Type := DEBUG | INFO | WARNING | ERROR.

(** The log lines of the program, by format string and arguments. *)
Inductive message : Type :=
| RequestingServerTime
| ReRequestingContractDetails (sym : string)
| ReRequestingHistoricalData (sym : string)
| ReRequestingMarketData (sym : string)
| StartForReadData (real hist : bool)
| ContractDetailsReceived (c : Contract)
| UnknownContractDetailsReqId (reqId : Z)
| UnknownContractReceived (c : Contract)
| ContractDetailsEndMsg (reqId : Z)
| HistoricalDataMsg (sym : string) (bar : BarData)
| HistoricalDataEndMsg (reqId : Z) (start finish : string)
| TickSnapshotEndMsg (reqId : Z)
| SettingNextValidOrderId (orderId : Z)
| MarketDataTypeMsg (reqId ty : Z)
| CurrentTimeMsg (tim : Z)
| TickPriceMsg (sym : string) (tickType : Z) (price : float)
| TickSizeMsg (sym : string) (tickType : Z) (size : Z)
| StoreFailed
| StoreResponse
| QueueGetEmpty
| FieldsMsg (fields : list (list Byte.byte))
| DetectedInterrupt
| BadMessageMsg
| ConnQueueMsg.

Inductive event : Type :=
| Log (lvl : level) (m : message)            (* self.Logger: CloudLogger *)
| Logging (lvl : level) (m : message)        (* the logging module *)
| Answer (callback : string)                 (* EWrapper's base callback *)
| ReqCurrentTime
| ReqContractDetails (reqId : Z) (c : Contract)
| ReqHistoricalData (reqId : Z) (c : Contract)
| ReqMktData (reqId : Z) (c : Contract)
| UpdateItem (sym : string) (bar : BarData)  (* Quotes.EOD update_item *)
| WrapperError (len : nat)                   (* BAD_LENGTH for a frame *)
| Disconnect                                 (* self.disconnect() *)
| ConnDisconnect                             (* self.conn.disconnect() *)
| KeyboardInterruptCb.                       (* self.keyboardInterrupt() *)

(* ===================================================================== *)
(** ** The receiver: attributes of an IbApp instance *)
(* ===================================================================== *)

Record IbApp : Type := mkIbApp {
  subRealMD : bool;
  subHistMD : bool;
  lastStamp : Z;                             (* microseconds *)
  nextValidOrderId : option Z;               (* None until nextValidId *)
  nextValidReqId : option Z;
  requestedContracts : Dict.t Contract;
  requestedMarketData : Dict.t Contract;
  requestedHistoricalData : Dict.t Contract;
  marketDataLookup : Dict.t string;
  historicalLookup : Dict.t string
}.

(** [IbApp(real, hist)], constructed at time [now]. *)
Definition IbApp_init (real hist : bool) (now : Z) : IbApp :=
  mkIbApp real hist now None None
          Dict.empty Dict.empty Dict.empty Dict.empty Dict.empty.

Definition with_lastStamp (v : Z) (a : IbApp) : IbApp :=
  mkIbApp (subRealMD a) (subHistMD a) v (nextValidOrderId a)
          (nextValidReqId a) (requestedContracts a) (requestedMarketData a)
          (requestedHistoricalData a) (marketDataLookup a) (historicalLookup a).

Definition with_nextValidOrderId (v : option Z) (a : IbApp) : IbApp :=
  mkIbApp (subRealMD a) (subHistMD a) (lastStamp a) v
          (nextValidReqId a) (requestedContracts a) (requestedMarketData a)
          (requestedHistoricalData a) (marketDataLookup a) (historicalLookup a).

Definition with_nextValidReqId (v : option Z) (a : IbApp) : IbApp :=
  mkIbApp (subRealMD a) (subHistMD a) (lastStamp a) (nextValidOrderId a)
          v (requestedContracts a) (requestedMarketData a)
          (requestedHistoricalData a) (marketDataLookup a) (historicalLookup a).

Definition with_requestedContracts (v : Dict.t Contract) (a : IbApp) : IbApp :=
  mkIbApp (subRealMD a) (subHistMD a) (lastStamp a) (nextValidOrderId a)
          (nextValidReqId a) v (requestedMarketData a)
          (requestedHistoricalData a) (marketDataLookup a) (historicalLookup a).

Definition with_requestedMarketData (v : Dict.t Contract) (a : IbApp) : IbApp :=
  mkIbApp (subRealMD a) (subHistMD a) (lastStamp a) (nextValidOrderId a)
          (nextValidReqId a) (requestedContracts a) v
          (requestedHistoricalData a) (marketDataLookup a) (historicalLookup a).

Definition with_requestedHistoricalData (v : Dict.t Contract) (a : IbApp) : IbApp :=
  mkIbApp (subRealMD a) (subHistMD a) (lastStamp a) (nextValidOrderId a)
          (nextValidReqId a) (requestedContracts a) (requestedMarketData a)
          v (marketDataLookup a) (historicalLookup a).

Definition with_marketDataLookup (v : Dict.t string) (a : IbApp) : IbApp :=
  mkIbApp (subRealMD a) (subHistMD a) (lastStamp a) (nextValidOrderId a)
          (nextValidReqId a) (requestedContracts a) (requestedMarketData a)
          (requestedHistoricalData a) v (historicalLookup a).

Definition with_historicalLookup (v : Dict.t string) (a : IbApp) : IbApp :=
  mkIbApp (subRealMD a) (subHistMD a) (lastStamp a) (nextValidOrderId a)
          (nextValidReqId a) (requestedContracts a) (requestedMarketData a)
          (requestedHistoricalData a) (marketDataLookup a) v.

(* ===================================================================== *)
(** ** Methods: state, exceptions and emitted events *)
(* ===================================================================== *)

Inductive outcome (A : Type) : Type :=
| Ok (a : A)
| Raise (e : exn).
Arguments Ok {A} a.
Arguments Raise {A} e.

(** A method body: from the receiver to how it ended, the receiver as it
    left it (also when it raised) and the events it emitted, oldest first. *)
Definition M (A : Type) : Type := IbApp -> outcome A * IbApp * list event.

Definition ret {A} (a : A) : M A := fun self => (Ok a, self, []).

Definition bind {A B} (m : M A) (k : A -> M B) : M B :=
  fun self =>
    match m self with
    | (Ok a, self1, ev1) =>
        match k a self1 with
        | (r, self2, ev2) => (r, self2, ev1 ++ ev2)
        end
    | (Raise e, self1, ev1) => (Raise e, self1, ev1)
    end.

Notation "x <- m ;; k" := (bind m (fun x => k))
  (at level 61, m at next level, right associativity).
Notation "m ;; k" := (bind m (fun _ => k))
  (at level 61, right associativity).

Definition raise {A} (e : exn) : M A := fun self => (Raise e, self, []).
Definition emit (e : event) : M unit := fun self => (Ok tt, self, [e]).
Definition this : M IbApp := fun self => (Ok self, self, []).
Definition modify (f : IbApp -> IbApp) : M unit :=
  fun self => (Ok tt, f self, []).

(** [try: m  except <the exceptions h handles>: ...]; [h e = None] lets [e]
    pass. *)
Definition try_except {A} (m : M A) (h : exn -> option (M A)) : M A :=
  fun self =>
    match m self with
    | (Ok a, self1, ev1) => (Ok a, self1, ev1)
    | (Raise e, self1, ev1) =>
        match h e with
        | None => (Raise e, self1, ev1)
        | Some k =>
            match k self1 with
            | (r, self2, ev2) => (r, self2, ev1 ++ ev2)
            end
        end
    end.

(** [for x in xs: body(x)] *)
Fixpoint for_each {X} (xs : list X) (body : X -> M unit) : M unit :=
  match xs with
  | [] => ret tt
  | x :: xs' => body x ;; for_each xs' body
  end.

Definition when (b : bool) (m : M unit) : M unit :=
  if b then m else ret tt.

Definition log (lvl : level) (m : message) : M unit := emit (Log lvl m).
Definition logging (lvl : level) (m : message) : M unit :=
  emit (Logging lvl m).

(** The three components of a finished call. *)
Definition result_of {A} (r : outcome A * IbApp * list event) : outcome A :=
  fst (fst r).
Definition state_of {A} (r : outcome A * IbApp * list event) : IbApp :=
  snd (fst r).
Definition events_of {A} (r : outcome A * IbApp * list event) : list event :=
  snd r.

(* ===================================================================== *)
(** ** IbApp: allocator, bootstrap, resync and reply handlers *)
(* ===================================================================== *)

Section IbAppMethods.

(** The record store's answer to [Quotes.EOD.update_item]: [true] when the
    call returns, [false] when it raises. *)
Variable update_item : string -> BarData -> bool.

(** [nextReqId]: [None += 1] is a [TypeError]. *)
Definition nextReqId : M Z :=
  self <- this ;;
  match nextValidReqId self with
  | None => raise TypeError
  | Some reqId =>
      modify (with_nextValidReqId (Some (reqId + 1))) ;;
      ret reqId
  end.

Definition nextOrderId : M Z :=
  self <- this ;;
  match nextValidOrderId self with
  | None => raise TypeError
  | Some orderId =>
      modify (with_nextValidOrderId (Some (orderId + 1))) ;;
      ret orderId
  end.

(** [UpdateQuote]: both [except] clauses log and swallow the error. *)
Definition UpdateQuote (sym : string) (bar : BarData) : M unit :=
  emit (UpdateItem sym bar) ;;
  if update_item sym bar
  then log DEBUG StoreResponse
  else log ERROR StoreFailed.

Definition verify : M unit :=
  log INFO RequestingServerTime ;;
  emit ReqCurrentTime ;;
  self <- this ;;
  for_each (Dict.items (requestedContracts self))
    (fun kv =>
       emit (ReqContractDetails (fst kv) (snd kv)) ;;
       log INFO (ReRequestingContractDetails (symbol (snd kv)))) ;;
  self <- this ;;
  when (subHistMD self)
    (self <- this ;;
     for_each (Dict.items (requestedHistoricalData self))
       (fun kv =>
          emit (ReqHistoricalData (fst kv) (snd kv)) ;;
          log INFO (ReRequestingHistoricalData (symbol (snd kv))))) ;;
  self <- this ;;
  when (subRealMD self)
    (self <- this ;;
     for_each (Dict.items (requestedMarketData self))
       (fun kv =>
          emit (ReqMktData (fst kv) (snd kv)) ;;
          log INFO (ReRequestingMarketData (symbol (snd kv))))).

(** The contract [start] builds for one item of the securities table:
    a fresh [Contract] with symbol, product type and exchange assigned,
    and the trading class as well when the product type is ['FUT']. *)
Definition start_contract (sec : Security) : Contract :=
  let contract :=
    mkContract (Symbol sec) (ProductType sec) (Exchange sec)
               (tradingClass Contract_new)
               (lastTradeDateOrContractMonth Contract_new)
               (localSymbol Contract_new) in
  if (secType contract =? "FUT")%string
  then mkContract (symbol contract) (secType contract) (exchange contract)
                  (Symbol sec)
                  (lastTradeDateOrContractMonth contract)
                  (localSymbol contract)
  else contract.

(** [start], given what [self.getSecurities()] returned; iterating over
    [None] is a [TypeError]. *)
Definition start (items : option (list Security)) : M unit :=
  self <- this ;;
  log INFO (StartForReadData (subRealMD self) (subHistMD self)) ;;
  match items with
  | None => raise TypeError
  | Some secs =>
      for_each secs
        (fun sec =>
           when (SubscriptionEnabled sec)
             (let contract := start_contract sec in
              rId <- nextReqId ;;
              self <- this ;;
              modify (with_requestedContracts
                        (Dict.set rId contract (requestedContracts self))) ;;
              emit (ReqContractDetails rId contract)))
  end.

(** The descriptor [contractDetails] builds from the server's answer. *)
Definition validated_contract (details : ContractDetails) : Contract :=
  mkContract (symbol (summary details))
             (secType (summary details))
             (exchange (summary details))
             (tradingClass (summary details))
             (lastTradeDateOrContractMonth (summary details))
             (localSymbol (summary details)).

Definition contractDetails (reqId : Z) (details : ContractDetails)
  : M unit :=
  emit (Answer "contractDetails") ;;
  log INFO (ContractDetailsReceived (summary details)) ;;
  self <- this ;;
  match Dict.get reqId (requestedContracts self) with
  | None => log WARNING (UnknownContractDetailsReqId reqId)
  | Some contract =>
      if ((symbol contract =? symbol (summary details))%string
          || (symbol contract =? marketName details)%string)%bool
      then
        let validated := validated_contract details in
        self <- this ;;
        when (subRealMD self)
          (cId <- nextReqId ;;
           self <- this ;;
           modify (with_marketDataLookup
                     (Dict.set cId (localSymbol validated)
                               (marketDataLookup self))) ;;
           self <- this ;;
           modify (with_requestedMarketData
                     (Dict.set cId validated (requestedMarketData self))) ;;
           emit (ReqMktData cId contract)) ;;
        self <- this ;;
        when (subHistMD self)
          (hId <- nextReqId ;;
           self <- this ;;
           modify (with_historicalLookup
                     (Dict.set hId (localSymbol validated)
                               (historicalLookup self))) ;;
           self <- this ;;
           modify (with_requestedHistoricalData
                     (Dict.set hId validated (requestedHistoricalData self))) ;;
           emit (ReqHistoricalData hId validated))
      else log WARNING (UnknownContractReceived (summary details))
  end.

Definition contractDetailsEnd (reqId : Z) : M unit :=
  emit (Answer "contractDetailsEnd") ;;
  log INFO (ContractDetailsEndMsg reqId) ;;
  self <- this ;;
  when (Dict.mem reqId (requestedContracts self))
    (modify (with_requestedContracts
               (Dict.del reqId (requestedContracts self)))).

Definition historicalData (reqId : Z) (bar : BarData) : M unit :=
  self <- this ;;
  match Dict.get reqId (historicalLookup self) with
  | None => raise (KeyError reqId)
  | Some sym =>
      log INFO (HistoricalDataMsg sym bar) ;;
      self <- this ;;
      when (Dict.mem reqId (requestedHistoricalData self))
        (modify (with_requestedHistoricalData
                   (Dict.del reqId (requestedHistoricalData self)))) ;;
      UpdateQuote sym bar
  end.

Definition historicalDataEnd (reqId : Z) (start finish : string) : M unit :=
  emit (Answer "historicalDataEnd") ;;
  log INFO (HistoricalDataEndMsg reqId start finish).

Definition tickSnapshotEnd (reqId : Z) : M unit :=
  emit (Answer "tickSnapshotEnd") ;;
  log INFO (TickSnapshotEndMsg reqId).

(** [nextValidId], given what [self.getSecurities()] returns in [start]. *)
Definition nextValidId (items : option (list Security)) (orderId : Z)
  : M unit :=
  emit (Answer "nextValidId") ;;
  log INFO (SettingNextValidOrderId orderId) ;;
  modify (with_nextValidOrderId (Some orderId)) ;;
  modify (with_nextValidReqId (Some orderId)) ;;
  start items.

Definition marketDataType (reqId ty : Z) : M unit :=
  emit (Answer "marketDataType") ;;
  log INFO (MarketDataTypeMsg reqId ty).

Definition currentTime (tim : Z) : M unit :=
  emit (Answer "currentTime") ;;
  log INFO (CurrentTimeMsg tim).

Definition tickPrice (tickerId tickType : Z) (price : float) : M unit :=
  self <- this ;;
  match Dict.get tickerId (marketDataLookup self) with
  | None => raise (KeyError tickerId)
  | Some sym =>
      log INFO (TickPriceMsg sym tickType price) ;;
      self <- this ;;
      when (Dict.mem tickerId (requestedMarketData self))
        (modify (with_requestedMarketData
                   (Dict.del tickerId (requestedMarketData self))))
  end.

Definition tickSize (tickerId tickType size : Z) : M unit :=
  self <- this ;;
  match Dict.get tickerId (marketDataLookup self) with
  | None => raise (KeyError tickerId)
  | Some sym => log INFO (TickSizeMsg sym tickType size)
  end.

(** [n] calls of the allocator in a row; the ids in the order returned. *)
Fixpoint allocate (n : nat) : M (list Z) :=
  match n with
  | O => ret []
  | S m =>
      reqId <- nextReqId ;;
      rest <- allocate m ;;
      ret (reqId :: rest)
  end.

End IbAppMethods.

(* ===================================================================== *)
(** ** InterruptableClient.runnable: the message loop *)
(* ===================================================================== *)

(** What [self.msg_queue.get(block=True, timeout=0.2)] does: it returns a
    frame, raises [queue.Empty], or is interrupted by another exception. *)
Inductive got : Type :=
| Frame (text : list byte)
| Empty
| Interrupted (e : exn).

(** What one pass through the loop observes of the transport thread, the
    clock and the operator.  A run of the loop is driven by a list of
    these; when the list ends the loop is still running. *)
Record tick : Type := mkTick {
  obs_done : bool;              (* self.done *)
  obs_connected : bool;         (* self.conn.isConnected() *)
  obs_queued : bool;            (* not self.msg_queue.empty() *)
  obs_get : got;
  obs_now : Z;                  (* utcnow() compared with lastStamp *)
  obs_stamp : Z;                (* utcnow() stored in lastStamp *)
  obs_hard : bool               (* keyboardInterruptHard raises SystemExit *)
}.

Inductive flow : Type := Next | Break.

Inductive status : Type := Exited | Running.

Section MessageLoop.

(** [ibapi.common.MAX_MSG_LEN], [comm.read_fields] and
    [self.decoder.interpret] belong to the gateway library. *)
Variable MAX_MSG_LEN : Z.
Variable read_fields : list byte -> list (list byte).
Variable interpret : list (list byte) -> M unit.

(** The liveness probe handed to [runnable]. *)
Variable func : M unit.

(** The inner [try: ... except queue.Empty: ... else: ...]. *)
Definition poll (t : tick) : M flow :=
  match obs_get t with
  | Frame text =>
      if MAX_MSG_LEN <? Z.of_nat (List.length text)
      then
        emit (WrapperError (List.length text)) ;;
        emit Disconnect ;;
        ret Break
      else
        let fields := read_fields text in
        logging DEBUG (FieldsMsg fields) ;;
        interpret fields ;;
        ret Next
  | Empty =>
      self <- this ;;
      when (30000000 <? obs_now t - lastStamp self)
        (func ;; modify (with_lastStamp (obs_stamp t))) ;;
      logging DEBUG QueueGetEmpty ;;
      ret Next
  | Interrupted e => raise e
  end.

(** The outer [try] with its two [except] clauses. *)
Definition guarded (t : tick) : M flow :=
  try_except (poll t)
    (fun e =>
       match e with
       | KeyboardInterrupt | SystemExit =>
           Some (logging INFO DetectedInterrupt ;;
                 emit KeyboardInterruptCb ;;
                 (if obs_hard t then raise SystemExit else ret tt) ;;
                 ret Next)
       | BadMessage =>
           Some (logging INFO BadMessageMsg ;;
                 emit ConnDisconnect ;;
                 ret Next)
       | _ => None
       end).

(** One pass through the body of the [while]; [break] skips the debug
    line that ends the body. *)
Definition iteration (t : tick) : M flow :=
  fl <- guarded t ;;
  match fl with
  | Break => ret Break
  | Next => logging DEBUG ConnQueueMsg ;; ret Next
  end.

(** [while not self.done and (self.conn.isConnected()
                              or not self.msg_queue.empty()): ...] *)
Fixpoint message_loop (script : list tick) : M status :=
  match script with
  | [] => ret Running
  | t :: script' =>
      if (negb (obs_done t) && (obs_connected t || obs_queued t))%bool
      then
        fl <- iteration t ;;
        match fl with
        | Break => ret Exited
        | Next => message_loop script'
        end
      else ret Exited
  end.

(** [try: <the loop>  finally: self.disconnect()]: once the loop is left,
    by its condition, by [break] or by an exception, the client
    disconnects and the exception, if any, goes on to the caller. *)
Definition runnable (script : list tick) : M status :=
  fun self =>
    match message_loop script self with
    | (Ok Running, self1, ev) => (Ok Running, self1, ev)
    | (r, self1, ev) => (r, self1, ev ++ [Disconnect])
    end.

End MessageLoop.

(** [IbApp.loop]: [self.runnable(self.verify)]. *)
Definition loop (MAX_MSG_LEN : Z)
  (read_fields : list byte -> list (list byte))
  (interpret : list (list byte) -> M unit) (script : list tick) : M status :=
  runnable MAX_MSG_LEN read_fields interpret verify script.

(** Counting events of a trace. *)
Definition is_disconnect (e : event) : bool :=
  match e with Disconnect => true | _ => false end.

Definition is_bad_length (e : event) : bool :=
  match e with WrapperError _ => true | _ => false end.

Definition is_mkt_request (e : event) : bool :=
  match e with ReqMktData _ _ => true | _ => false end.

Definition is_hist_request (e : event) : bool :=
  match e with ReqHistoricalData _ _ => true | _ => false end.

Definition is_request (e : event) : bool :=
  match e with
  | ReqCurrentTime | ReqContractDetails _ _
  | ReqHistoricalData _ _ | ReqMktData _ _ => true
  | _ => false
  end.

Definition count (p : event -> bool) (ev : list event) : nat :=
  List.length (filter p ev).

(** The request ids of the market-data and historical requests of a
    trace, in the order they were sent. *)
Fixpoint mkt_request_ids (ev : list event) : list Z :=
  match ev with
  | [] => []
  | ReqMktData reqId _ :: ev' => reqId :: mkt_request_ids ev'
  | _ :: ev' => mkt_request_ids ev'
  end.

Fixpoint hist_request_ids (ev : list event) : list Z :=
  match ev with
  | [] => []
  | ReqHistoricalData reqId _ :: ev' => reqId :: hist_request_ids ev'
  | _ :: ev' => hist_request_ids ev'
  end.

(* ===================================================================== *)
(** ** Traces and ids the properties speak of *)
(* ===================================================================== *)

(** One request and one log line per pending item, in dictionary order:
    what a [for key, value in d.items()] loop of [verify] emits. *)
Definition replay (req : Z -> Contract -> event) (msg : string -> message)
  (d : Dict.t Contract) : list event :=
  flat_map (fun kv => [req (fst kv) (snd kv);
                       Log INFO (msg (symbol (snd kv)))])
           (Dict.items d).

Definition verify_trace (self : IbApp) : list event :=
  [Log INFO RequestingServerTime; ReqCurrentTime]
  ++ replay ReqContractDetails ReRequestingContractDetails
            (requestedContracts self)
  ++ (if subHistMD self
      then replay ReqHistoricalData ReRequestingHistoricalData
                  (requestedHistoricalData self)
      else [])
  ++ (if subRealMD self
      then replay ReqMktData ReRequestingMarketData
                  (requestedMarketData self)
      else []).

(** A trace without [self.disconnect()] and without a frame-length error;
    a method is quiet when all its traces are. *)
Definition silent (ev : list event) : Prop :=
  count is_disconnect ev = O /\ count is_bad_length ev = O.

Definition quiet {A} (m : M A) : Prop :=
  forall self, silent (events_of (m self)).

(** Inside the loop [self.disconnect()] is called for an oversized frame
    and for nothing else, and an oversized frame ends the loop. *)
Definition accounted (r : outcome flow * IbApp * list event) : Prop :=
  count is_disconnect (events_of r) = count is_bad_length (events_of r) /\
  ((result_of r = Ok Break /\ count is_bad_length (events_of r) = 1%nat) \/
   (result_of r <> Ok Break /\ count is_bad_length (events_of r) = O)).

(** The contract requests [start] sends for a securities table when the
    counter stands at [c]: one per enabled item, numbered from [c]. *)
Fixpoint numbered (c : Z) (secs : list Security) : list (Z * Contract) :=
  match secs with
  | [] => []
  | sec :: secs' =>
      if SubscriptionEnabled sec
      then (c, start_contract sec) :: numbered (c + 1) secs'
      else numbered c secs'
  end.

(** [d[k] = v] for each pair of [l], in order. *)
Definition registered (l : list (Z * Contract)) (d : Dict.t Contract)
  : Dict.t Contract :=
  fold_left (fun d kv => Dict.set (fst kv) (snd kv) d) l d.

(** The contract requests of a trace. *)
Fixpoint contract_requests (ev : list event) : list (Z * Contract) :=
  match ev with
  | [] => []
  | ReqContractDetails reqId c :: ev' => (reqId, c) :: contract_requests ev'
  | _ :: ev' => contract_requests ev'
  end.

(** The rule of [start] for the trading class. *)
Definition normalized (c : Contract) : Prop :=
  (secType c = "FUT"%string -> tradingClass c = symbol c) /\
  (secType c <> "FUT"%string -> tradingClass c = EmptyString).

(** Every request id some dictionary of the receiver knows. *)
Definition used_ids (self : IbApp) : list Z :=
  Dict.keys (requestedContracts self)
  ++ Dict.keys (requestedMarketData self)
  ++ Dict.keys (requestedHistoricalData self)
  ++ Dict.keys (marketDataLookup self)
  ++ Dict.keys (historicalLookup self).

(* ===================================================================== *)
(** ** A session used in the examples *)
(* ===================================================================== *)

(** One enabled equity in the securities table, the handshake
    [nextValidId(100)], then the contract details of the equity. *)
Definition ABC : Security := mkSecurity "ABC" "STK" "NASDAQ" true.

Definition ABC_details : ContractDetails :=
  mkContractDetails
    (mkContract "ABC" "STK" "NASDAQ" "NMS" EmptyString "ABC") "NMS".

(** A future whose trading class at the gateway is not its symbol. *)
Definition DAX : Security := mkSecurity "DAX" "FUT" "DTB" true.

Definition DAX_details : ContractDetails :=
  mkContractDetails
    (mkContract "DAX" "FUT" "DTB" "FDAX" "20181221" "FDAX DEC 18") "FDAX".

Definition session_DAX : IbApp :=
  state_of
    ((nextValidId (Some [DAX]) 200 ;; contractDetails 200 DAX_details)
       (IbApp_init true true 0)).

Definition session_ABC : IbApp :=
  state_of
    ((nextValidId (Some [ABC]) 100 ;; contractDetails 100 ABC_details)
       (IbApp_init true true 0)).

Definition a_bar : BarData :=
  mkBarData "20181203" (Float 4636737291354636288) (Float 4636807660098813952)
            (Float 4636666922610458624) (Float 4636772475726725120) 1200 85.

(** A small wire format for the examples of the message loop: a frame is
    a kind byte and an id byte, each a field of its own; kinds 1, 2 and 3
    are [contractDetailsEnd], [tickSnapshotEnd] and [tickSize], anything
    else is a [BadMessage]. *)
Definition sample_read_fields (text : list byte) : list (list byte) :=
  map (fun b => [b]) text.

Definition sample_interpret (fields : list (list byte)) : M unit :=
  match fields with
  | [[kind]; [i]] =>
      let reqId := Z.of_N (Byte.to_N i) in
      match kind with
      | x01 => contractDetailsEnd reqId
      | x02 => tickSnapshotEnd reqId
      | x03 => tickSize reqId 0 1
      | _ => raise BadMessage
      end
  | _ => raise BadMessage
  end.

(** [MAX_MSG_LEN = 0xFFFFFF] in [ibapi.common], and a frame one byte
    longer. *)
Definition ibapi_MAX_MSG_LEN : Z := 16777215.

Definition oversized_frame : list byte := repeat x00 (Z.to_nat 16777216).

Definition connected_tick (g : got) (now : Z) (hard : bool) : tick :=
  mkTick false true false g now now hard.

Definition closed_tick : tick :=
  mkTick false false false Empty 0 0 false.

(* ===================================================================== *)
(** ** IbApp.getSecurities: the securities scan behind the retry wrapper *)
(* ===================================================================== *)

(** What one [self.__Securities.scan()] does: it raises a [ClientError],
    raises something else, or returns a response, with or without an
    ['Items'] key. *)
Inductive scan_outcome : Type :=
| ScanClientError (text : string)
| ScanException (text : string)
| ScanResponse (items : option (list Security)).

Inductive scan_log : Type :=
| CallingSecuritiesScan
| ScanErrorText (text : string).

(** The world of [getSecurities]: how many scans were made and what was
    logged. *)
Record scanner : Type := mkScanner {
  scans : nat;
  scan_logged : list (level * scan_log)
}.

Section GetSecurities.

(** The answer of the record store to its [n]-th scan. *)
Variable table : nat -> scan_outcome.

(** The undecorated method: both [except] clauses log and return [None];
    a response without ['Items'] falls off the end, which is [None] too. *)
Definition getSecurities_body (w : scanner) : option (list Security) * scanner :=
  let logged := scan_logged w ++ [(INFO, CallingSecuritiesScan)] in
  match table (scans w) with
  | ScanClientError text =>
      (None, mkScanner (S (scans w)) (logged ++ [(ERROR, ScanErrorText text)]))
  | ScanException text =>
      (None, mkScanner (S (scans w)) (logged ++ [(ERROR, ScanErrorText text)]))
  | ScanResponse items =>
      (items, mkScanner (S (scans w)) logged)
  end.

(** [@Utils.reliable def getSecurities(self)] *)
Definition getSecurities (w : scanner) : Utils.locals :=
  Utils.reliable getSecurities_body w.

(** What a scan contributes to [getSecurities]. *)
Definition scanned_items (o : scan_outcome) : option (list Security) :=
  match o with
  | ScanResponse items => items
  | _ => None
  end.

End GetSecurities.

(* ===================================================================== *)
(** ** CloudLogger *)
(* ===================================================================== *)

Module CloudLogger.

(** What a logger call does outside: a record for the file logger, and a
    [put_log_events] with or without a sequence token. *)
Inductive call : Type :=
| FileLog (lvl : level) (msg : string)
| PutLogEvents (sequenceToken : option string) (message : string).

(** What a logger call gets from outside: the two readings of
    [time.strftime] and the ['nextSequenceToken'] of the response, if the
    response has one. *)
Record outside : Type := mkOutside {
  clock_format : string;
  clock_put : string;
  nextSequenceToken : option string
}.

Inductive logged (A : Type) : Type :=
| Done (a : A)
| KeyError_nextSequenceToken.
Arguments Done {A} a.
Arguments KeyError_nextSequenceToken {A}.

(** [__logToStream]: the state is [self.__sequenceToken]. *)
Definition logToStream (o : outside) (msg : string) (token : option string)
  : logged (option string) * list call :=
  let sent :=
    match token with
    | None => PutLogEvents None (clock_put o ++ msg)
    | Some t => PutLogEvents (Some t) msg
    end in
  match nextSequenceToken o with
  | Some next => (Done (Some next), [sent])
  | None => (KeyError_nextSequenceToken, [sent])
  end.

(** The name of the calling method, in capitals. *)
Definition level_name (lvl : level) : string :=
  match lvl with
  | DEBUG => "DEBUG"
  | INFO => "INFO"
  | WARNING => "WARNING"
  | ERROR => "ERROR"
  end.

(** [info], [debug], [warning] and [error] differ by the level only. *)
Definition write (lvl : level) (o : outside) (msg : string)
  (token : option string) : logged (option string) * list call :=
  let line :=
    (clock_format o ++ " [" ++ level_name lvl ++ "] " ++ msg)%string in
  match logToStream o line token with
  | (r, calls) => (r, FileLog lvl msg :: calls)
  end.

(** A series of logger calls; the first [KeyError] ends it. *)
Fixpoint write_all (reqs : list (level * outside * string))
  (token : option string) : logged (option string) * list call :=
  match reqs with
  | [] => (Done token, [])
  | (lvl, o, msg) :: reqs' =>
      match write lvl o msg token with
      | (Done token', calls) =>
          match write_all reqs' token' with
          | (r, calls') => (r, calls ++ calls')
          end
      | (KeyError_nextSequenceToken, calls) =>
          (KeyError_nextSequenceToken, calls)
      end
  end.

(** The tokens passed to [put_log_events], in order. *)
Fixpoint tokens_sent (calls : list call) : list (option string) :=
  match calls with
  | [] => []
  | PutLogEvents t _ :: calls' => t :: tokens_sent calls'
  | FileLog _ _ :: calls' => tokens_sent calls'
  end.

End CloudLogger.

(* ===================================================================== *)
(** ** DecimalEncoder *)
(* ===================================================================== *)

Module DecimalEncoder.

(** A finite [decimal.Decimal]: [coefficient * 10 ^ exponent], the sign
    being that of the coefficient. *)
Record Decimal : Type := mkDecimal {
  coefficient : Z;
  exponent : Z
}.

Inductive object : Type :=
| ODecimal (d : Decimal)
| OOther.

Inductive encoded : Type :=
| AsFloat (d : Decimal)            (* float(o) *)
| AsInt (n : Z).                   (* int(o) *)

Inductive failure : Type :=
| NotSerializable                  (* TypeError of JSONEncoder.default *)
| DivisionImpossible.              (* decimal.InvalidOperation of [%] *)

(** The default decimal context: 28 digits of precision and a least
    exponent of [-999999]; a result whose exponent would be below [Etiny]
    is rounded to that exponent, half to even. *)
Definition prec : Z := 28.
Definition Emin : Z := -999999.
Definition Etiny : Z := Emin - prec + 1.

(** [10 ^ -exponent] for a decimal with digits after the point. *)
Definition scale (d : Decimal) : Z := 10 ^ (- exponent d).

(** [int(o)]: the integral part, rounded towards zero. *)
Definition to_int (d : Decimal) : Z :=
  if 0 <=? exponent d
  then coefficient d * 10 ^ exponent d
  else Z.quot (coefficient d) (scale d).

(** The exact remainder of [o] by 1, in units of [10 ^ exponent]: it has
    the sign of [o]. *)
Definition remainder (d : Decimal) : Z :=
  if 0 <=? exponent d
  then 0
  else Z.rem (coefficient d) (scale d).

(** Whether the context rounds the remainder [r * 10 ^ exponent] to zero:
    it does when the exponent is below [Etiny] and the remainder is at
    most half a unit of [10 ^ Etiny]. *)
Definition underflows (d : Decimal) (r : Z) : bool :=
  ((exponent d <? Etiny)
   && (2 * Z.abs r <=? 10 ^ (Etiny - exponent d)))%bool.

(** The sign of [o % 1]: that of the exact remainder, unless the context
    rounds the remainder to zero. *)
Definition mod_one_sign (d : Decimal) : Z :=
  if underflows d (remainder d) then 0 else Z.sgn (remainder d).

(** [default]: [%] fails when the integral part needs more than [prec]
    digits. *)
Definition default (o : object) : encoded + failure :=
  match o with
  | ODecimal d =>
      if 10 ^ prec <=? Z.abs (to_int d)
      then inr DivisionImpossible
      else if 0 <? mod_one_sign d
           then inl (AsFloat d)
           else inl (AsInt (to_int d))
  | OOther => inr NotSerializable
  end.

End DecimalEncoder.

(* ===================================================================== *)
(** ** Series of callbacks *)
(* ===================================================================== *)

(** [error] and [winError]: both hand their arguments to the base
    class's [error], which logs them. *)
Definition error : M unit := emit (Answer "error").

Definition winError : M unit := emit (Answer "error").

(** The calls a running client receives: the twelve handlers the decoder
    dispatches to, and the probe of the idle loop.  A handshake carries
    what [self.getSecurities()] returns when [start] asks for it. *)
Inductive callback : Type :=
| OnContractDetails (reqId : Z) (details : ContractDetails)
| OnContractDetailsEnd (reqId : Z)
| OnHistoricalData (reqId : Z) (bar : BarData)
| OnHistoricalDataEnd (reqId : Z) (start finish : string)
| OnTickSnapshotEnd (reqId : Z)
| OnNextValidId (items : option (list Security)) (orderId : Z)
| OnMarketDataType (reqId ty : Z)
| OnError
| OnWinError
| OnCurrentTime (tim : Z)
| OnTickPrice (tickerId tickType : Z) (price : float)
| OnTickSize (tickerId tickType size : Z)
| OnVerify.


Section Callbacks.
Variable update_item : string -> BarData -> bool.

Definition handle (cb : callback) : M unit :=
  match cb with
  | OnContractDetails reqId details => contractDetails reqId details
  | OnContractDetailsEnd reqId => contractDetailsEnd reqId
  | OnHistoricalData reqId bar => historicalData update_item reqId bar
  | OnHistoricalDataEnd reqId start finish =>
      historicalDataEnd reqId start finish
  | OnTickSnapshotEnd reqId => tickSnapshotEnd reqId
  | OnNextValidId items orderId => nextValidId items orderId
  | OnMarketDataType reqId ty => marketDataType reqId ty
  | OnError => error
  | OnWinError => winError
  | OnCurrentTime tim => currentTime tim
  | OnTickPrice tickerId tickType price => tickPrice tickerId tickType price
  | OnTickSize tickerId tickType size => tickSize tickerId tickType size
  | OnVerify => verify
  end.

(** The callbacks one after the other, up to the first that raises. *)
Definition feed (cbs : list callback) : M unit := for_each cbs handle.

End Callbacks.

(** Every key of [d] is below [c]. *)
Definition below {V} (c : Z) (d : Dict.t V) : Prop :=
  Forall (fun k => k < c) (Dict.keys d).

(** The counter is seeded and is above every request id in use, and every
    pending market-data or historical request has its lookup entry. *)
Definition well_keyed (self : IbApp) : Prop :=
  exists c,
    nextValidReqId self = Some c /\
    below c (requestedContracts self) /\
    below c (requestedMarketData self) /\
    below c (requestedHistoricalData self) /\
    below c (marketDataLookup self) /\
    below c (historicalLookup self) /\
    incl (Dict.keys (requestedMarketData self))
         (Dict.keys (marketDataLookup self)) /\
    incl (Dict.keys (requestedHistoricalData self))
         (Dict.keys (historicalLookup self)).

(* ===================================================================== *)
(** ** Notions for the message loop *)
(* ===================================================================== *)

(** The condition of the [while] of [runnable], as a tick observes it. *)
Definition loop_condition (t : tick) : bool :=
  (negb (obs_done t) && (obs_connected t || obs_queued t))%bool.

(** A finished call with earlier events put in front of its own. *)
Definition preceded {A} (ev : list event) (r : outcome A * IbApp * list event)
  : outcome A * IbApp * list event :=
  (result_of r, state_of r, ev ++ events_of r).

(** The exceptions the loop has an [except] clause for. *)
Definition caught_by_loop (e : exn) : bool :=
  match e with
  | KeyboardInterrupt | SystemExit | BadMessage => true
  | _ => false
  end.

(* ===================================================================== *)
(** * Properties *)
(* ===================================================================== *)

Section ReliableFacts.
Import Utils.
Context {A W : Type}.
Variable func : W -> option A * W.

Lemma while_loop_step (l : @locals A W) :
  while_loop func l =
  match result l with
  | Some _ => l
  | None =>
      if Z_lt_dec (tries l) 10
      then while_loop func
             (Locals (tries l + 1) (fst (func (world l)))
                     (snd (func (world l)))
                     (trace l ++ [Sleep (2 ^ (tries l + 1)); Invoke]))
      else l
  end.
Proof.
  rewrite while_loop_equation_1.
  destruct (result l); [reflexivity|].
  simpl. destruct (Z_lt_dec (tries l) 10); reflexivity.
Qed.

(** As long as the wrapped call keeps answering [None] and [tries] has
    not reached 10, the loop goes on: [n] such answers are [n] retries. *)
Lemma while_loop_nones (n : nat) :
  forall l : @locals A W,
    result l = None ->
    tries l + Z.of_nat n <= 10 ->
    (forall i, (i < n)%nat -> answer func i (world l) = None) ->
    while_loop func l =
    while_loop func
      (Locals (tries l + Z.of_nat n) None (after func n (world l))
              (trace l ++ backoff (tries l) n)).
Proof.
  induction n as [|m IH]; intros l Hres Hle Hnone.
  - destruct l as [t r w tr]; simpl in *; subst r.
    rewrite Z.add_0_r, app_nil_r. reflexivity.
  - rewrite while_loop_step, Hres.
    destruct (Z_lt_dec (tries l) 10) as [_|Hge]; [|lia].
    rewrite IH; cbn [tries result world trace].
    + f_equal. f_equal; [lia|].
      rewrite <- app_assoc. reflexivity.
    + apply (Hnone O). lia.
    + lia.
    + intros i Hi. apply (Hnone (S i)). lia.
Qed.

Lemma invocations_app (a b : list step) :
  invocations (a ++ b) = (invocations a + invocations b)%nat.
Proof. unfold invocations. rewrite filter_app, length_app. reflexivity. Qed.

Lemma invocations_backoff (n : nat) :
  forall t, invocations (backoff t n) = n.
Proof.
  induction n as [|m IH]; intros t; [reflexivity|].
  simpl. unfold invocations in *. simpl. rewrite IH. reflexivity.
Qed.

Lemma slept_app (a b : list step) : slept (a ++ b) = slept a + slept b.
Proof.
  unfold slept. induction a as [|x a IH]; simpl; [reflexivity|].
  rewrite IH. lia.
Qed.

Lemma delays_backoff (n : nat) :
  forall t, delays (backoff t n) =
            map (fun i => 2 ^ (t + Z.of_nat i)) (seq 1 n).
Proof.
  induction n as [|m IH]; intros t; [reflexivity|].
  cbn [backoff delays seq map]. rewrite IH. f_equal.
  rewrite <- (seq_shift m 1), map_map. apply map_ext. intros i.
  f_equal. lia.
Qed.

Lemma slept_backoff (n : nat) :
  forall t, 0 <= t ->
    slept (backoff t n) = 2 ^ (t + Z.of_nat n + 1) - 2 ^ (t + 1).
Proof.
  induction n as [|m IH]; intros t Ht.
  - cbn [backoff]. unfold slept. cbn [map fold_right].
    change (Z.of_nat 0) with 0. rewrite Z.add_0_r. lia.
  - cbn [backoff]. unfold slept in *. cbn [map sleep_of fold_right].
    rewrite IH by lia.
    replace (t + 1 + Z.of_nat m + 1) with (t + Z.of_nat (S m) + 1) by lia.
    replace (t + 1 + 1) with (Z.succ (t + 1)) by lia.
    rewrite Z.pow_succ_r by lia. lia.
Qed.

Lemma after_succ (n : nat) :
  forall s, after func (S n) s = snd (func (after func n s)).
Proof.
  induction n as [|m IH]; intros s; [reflexivity|].
  change (after func (S (S m)) s) with (after func (S m) (snd (func s))).
  rewrite IH. reflexivity.
Qed.

Lemma backoff_snoc (n : nat) :
  forall t, backoff t (S n) =
            backoff t n ++ [Sleep (2 ^ (t + Z.of_nat n + 1)); Invoke].
Proof.
  induction n as [|m IH]; intros t.
  - cbn [backoff app]. change (Z.of_nat 0) with 0. rewrite Z.add_0_r.
    reflexivity.
  - change (backoff t (S (S m)))
      with (Sleep (2 ^ (t + 1)) :: Invoke :: backoff (t + 1) (S m)).
    rewrite IH. cbn [backoff app].
    replace (t + 1 + Z.of_nat m + 1) with (t + Z.of_nat (S m) + 1) by lia.
    reflexivity.
Qed.

(** What [reliable] does when the first [k] answers are [None] and the
    loop bound is not reached before the [k]-th retry. *)
Lemma reliable_nones (k : nat) (s : W) :
  (k <= 10)%nat ->
  (forall i, (i <= k)%nat -> answer func i s = None) ->
  reliable func s =
  while_loop func
    (Locals (Z.of_nat k) None (after func (S k) s)
            (Invoke :: backoff 0 k)).
Proof.
  intros Hk Hnone. unfold reliable. cbn [result].
  pose proof (Hnone O (Nat.le_0_l k)) as H0. unfold answer in H0.
  cbn [after] in H0. rewrite H0.
  rewrite (@while_loop_nones k); cbn [tries result world trace].
  - reflexivity.
  - reflexivity.
  - lia.
  - intros i Hi. apply (Hnone (S i)). lia.
Qed.

End ReliableFacts.

(** C3. If the wrapped operation answers [None] on its first [k < 10]
    invocations and a value [v] on invocation [k+1], the wrapper returns
    [v] after exactly [k+1] invocations; before the [i]-th retry it sleeps
    [2^i] (i = 1..k), [2^1 + ... + 2^k = 2^(k+1) - 2] in all. *)
Theorem reliable_returns_after_k_failures
  (A W : Type) (func : W -> option A * W) (k : nat) (s : W) (v : A) :
  (k < 10)%nat ->
  (forall i, (i < k)%nat -> Utils.answer func i s = None) ->
  Utils.answer func k s = Some v ->
  let l := Utils.reliable func s in
  Utils.result l = Some v /\
  Utils.invocations (Utils.trace l) = S k /\
  Utils.trace l = Utils.Invoke :: Utils.backoff 0 k /\
  Utils.delays (Utils.trace l) = map (fun i => 2 ^ Z.of_nat i) (seq 1 k) /\
  Utils.slept (Utils.trace l) = 2 ^ (Z.of_nat k + 1) - 2 /\
  Utils.world l = Utils.after func (S k) s.
Proof.
  intros Hk Hnone Hval l.
  assert (Hl : l = Utils.Locals (Z.of_nat k) (Some v)
                     (Utils.after func (S k) s)
                     (Utils.Invoke :: Utils.backoff 0 k)).
  { subst l. destruct k as [|j].
    - unfold Utils.reliable. cbn [Utils.result].
      unfold Utils.answer in Hval. cbn [Utils.after] in Hval |- *.
      rewrite Hval. reflexivity.
    - rewrite (@reliable_nones A W func j) by (try lia; intros; apply Hnone; lia).
      rewrite while_loop_step. cbn [Utils.tries Utils.result Utils.world Utils.trace].
      destruct (Z_lt_dec (Z.of_nat j) 10) as [_|Hge]; [|lia].
      rewrite while_loop_step. cbn [Utils.tries Utils.result Utils.world Utils.trace].
      unfold Utils.answer in Hval. rewrite Hval.
      f_equal; [lia| |].
      + symmetry. apply after_succ.
      + rewrite backoff_snoc. rewrite Z.add_0_l. reflexivity. }
  rewrite Hl. cbn [Utils.result Utils.trace Utils.world].
  repeat split.
  - change (Utils.Invoke :: Utils.backoff 0 k)
      with ([Utils.Invoke] ++ Utils.backoff 0 k).
    rewrite invocations_app, invocations_backoff. reflexivity.
  - cbn [Utils.delays]. rewrite delays_backoff. apply map_ext.
    intros i. reflexivity.
  - change (Utils.Invoke :: Utils.backoff 0 k)
      with ([Utils.Invoke] ++ Utils.backoff 0 k).
    rewrite slept_app, slept_backoff by lia.
    unfold Utils.slept. simpl. lia.
Qed.


Lemma reliable_returns_after_k_failures_witness :
  let l := Utils.reliable (Utils.stub 3 42) 0%nat in
  Utils.result l = Some 42 /\
  Utils.invocations (Utils.trace l) = 4%nat /\
  Utils.trace l = Utils.Invoke :: Utils.backoff 0 3 /\
  Utils.delays (Utils.trace l) = [2; 4; 8] /\
  Utils.slept (Utils.trace l) = 14 /\
  Utils.world l = 4%nat.
Proof.
  apply (@reliable_returns_after_k_failures Z nat (Utils.stub 3 42) 3 0%nat 42).
  - lia.
  - intros i Hi. destruct i as [|[|[|i]]]; try reflexivity. lia.
  - reflexivity.
Defined.

(** C2 (as the code has it).  If the wrapped operation answers [None] on
    every invocation, the wrapper invokes it 11 times (the first call and
    10 retries, sleeping 2, 4, ..., 1024 in between) and returns [None];
    nothing is raised. *)
Theorem reliable_gives_up_after_ten_retries
  (A W : Type) (func : W -> option A * W) (s : W) :
  (forall i, Utils.answer func i s = None) ->
  let l := Utils.reliable func s in
  Utils.result l = None /\
  Utils.tries l = 10 /\
  Utils.invocations (Utils.trace l) = 11%nat /\
  Utils.delays (Utils.trace l) = map (fun i => 2 ^ Z.of_nat i) (seq 1 10) /\
  Utils.slept (Utils.trace l) = 2046 /\
  Utils.world l = Utils.after func 11 s.
Proof.
  intros Hnone l.
  assert (Hl : l = Utils.Locals 10 None (Utils.after func 11 s)
                     (Utils.Invoke :: Utils.backoff 0 10)).
  { subst l. rewrite (@reliable_nones A W func 10) by (try lia; intros; apply Hnone).
    rewrite while_loop_step. reflexivity. }
  rewrite Hl. cbn [Utils.result Utils.trace Utils.world Utils.tries].
  repeat split.
Qed.

Lemma reliable_gives_up_after_ten_retries_witness :
  let l := Utils.reliable Utils.never 0%nat in
  Utils.result l = None /\
  Utils.tries l = 10 /\
  Utils.invocations (Utils.trace l) = 11%nat /\
  Utils.delays (Utils.trace l) = [2; 4; 8; 16; 32; 64; 128; 256; 512; 1024] /\
  Utils.slept (Utils.trace l) = 2046 /\
  Utils.world l = 11%nat.
Proof.
  apply (@reliable_gives_up_after_ten_retries Z nat Utils.never 0%nat).
  intros i. reflexivity.
Defined.

(** C2 as stated fails: the stub that never answers is invoked 11 times,
    not 10. *)
Lemma reliable_never_stub_eleven_calls :
  Utils.result (Utils.reliable Utils.never 0%nat) = None /\
  Utils.invocations (Utils.trace (Utils.reliable Utils.never 0%nat)) <> 10%nat /\
  Utils.world (Utils.reliable Utils.never 0%nat) = 11%nat.
Proof.
  vm_compute. repeat split. discriminate.
Qed.

(* --------------------------------------------------------------------- *)
(** ** The request-id allocator *)
(* --------------------------------------------------------------------- *)

Lemma with_nextValidReqId_same (self : IbApp) (c : Z) :
  nextValidReqId self = Some c -> with_nextValidReqId (Some c) self = self.
Proof. destruct self; simpl; intros ->; reflexivity. Qed.

Lemma nextReqId_seeded (self : IbApp) (c : Z) :
  nextValidReqId self = Some c ->
  nextReqId self = (Ok c, with_nextValidReqId (Some (c + 1)) self, []).
Proof.
  intros H. unfold nextReqId, bind, this, modify, ret. rewrite H. reflexivity.
Qed.

Lemma allocate_seeded (n : nat) :
  forall (self : IbApp) (c : Z),
    nextValidReqId self = Some c ->
    allocate n self =
    (Ok (map (fun i => c + Z.of_nat i) (seq 0 n)),
     with_nextValidReqId (Some (c + Z.of_nat n)) self, []).
Proof.
  induction n as [|m IH]; intros self c H.
  - cbn [allocate seq map]. change (Z.of_nat 0) with 0. rewrite Z.add_0_r.
    rewrite with_nextValidReqId_same by assumption. reflexivity.
  - cbn [allocate]. unfold bind at 1. rewrite (nextReqId_seeded self H).
    unfold bind at 1.
    rewrite (IH (with_nextValidReqId (Some (c + 1)) self) (c + 1))
      by reflexivity.
    cbn [ret app seq map].
    replace (c + Z.of_nat 0) with c by lia.
    replace (c + 1 + Z.of_nat m) with (c + Z.of_nat (S m)) by lia.
    rewrite <- (seq_shift m 0), map_map.
    rewrite (map_ext (fun i => c + 1 + Z.of_nat i)
                     (fun i => c + Z.of_nat (S i))) by (intros i; lia).
    destruct self; reflexivity.
Qed.

Lemma offsets_increasing (c : Z) (n : nat) :
  forall k, StronglySorted Z.lt (map (fun i => c + Z.of_nat i) (seq k n)).
Proof.
  induction n as [|m IH]; intros k; cbn [seq map]; constructor.
  - apply IH.
  - apply Forall_forall. intros x Hx. apply in_map_iff in Hx.
    destruct Hx as [i [<- Hi]]. apply in_seq in Hi. lia.
Qed.

Lemma increasing_NoDup (l : list Z) : StronglySorted Z.lt l -> NoDup l.
Proof.
  induction 1 as [|a l Hs IH Hall]; constructor; [|assumption].
  intros Hin. rewrite Forall_forall in Hall. specialize (Hall a Hin). lia.
Qed.

(** C6. Once the counter is seeded with [c], [n] calls of [nextReqId] in a
    row all return, give the ids [c, c+1, ..., c+n-1] in this order and
    leave the counter at [c+n]: each id is strictly greater than every id
    returned before it, none is returned twice, and, the integers being
    unbounded, the counter does not wrap. *)
Theorem nextReqId_strictly_increasing (n : nat) (self : IbApp) (c : Z) :
  nextValidReqId self = Some c ->
  exists ids self',
    allocate n self = (Ok ids, self', []) /\
    ids = map (fun i => c + Z.of_nat i) (seq 0 n) /\
    nextValidReqId self' = Some (c + Z.of_nat n) /\
    StronglySorted Z.lt ids /\
    NoDup ids /\
    Forall (fun reqId => c <= reqId < c + Z.of_nat n) ids.
Proof.
  intros H. eexists. eexists. split; [apply (allocate_seeded n self H)|].
  split; [reflexivity|]. split; [reflexivity|].
  split; [apply offsets_increasing|].
  split; [apply increasing_NoDup, offsets_increasing|].
  apply Forall_forall. intros x Hx. apply in_map_iff in Hx.
  destruct Hx as [i [<- Hi]]. apply in_seq in Hi. lia.
Qed.

Lemma nextReqId_strictly_increasing_witness :
  exists ids self',
    allocate 3 (with_nextValidReqId (Some 100) (IbApp_init true true 0)) =
      (Ok ids, self', []) /\
    ids = [100; 101; 102] /\
    nextValidReqId self' = Some 103 /\
    StronglySorted Z.lt ids /\
    NoDup ids /\
    Forall (fun reqId => 100 <= reqId < 103) ids.
Proof.
  apply (@nextReqId_strictly_increasing 3
           (with_nextValidReqId (Some 100) (IbApp_init true true 0)) 100).
  reflexivity.
Defined.

(* --------------------------------------------------------------------- *)
(** ** Dictionaries *)
(* --------------------------------------------------------------------- *)

Section DictFacts.
Context {V : Type}.
Implicit Types (d : Dict.t V) (k : Z) (v : V).

Lemma mem_false_get d k : Dict.mem k d = false -> Dict.get k d = None.
Proof. unfold Dict.mem. destruct (Dict.get k d); [discriminate|reflexivity]. Qed.

Lemma get_del_same d k : Dict.get k (Dict.del k d) = None.
Proof.
  induction d as [|[k' v'] d IH]; [reflexivity|].
  unfold Dict.del in *. cbn [filter fst].
  destruct (k =? k') eqn:E; cbn [negb]; [exact IH|].
  cbn [Dict.get]. rewrite E. exact IH.
Qed.

Lemma mem_del_same d k : Dict.mem k (Dict.del k d) = false.
Proof. unfold Dict.mem. rewrite get_del_same. reflexivity. Qed.

Lemma get_del_other d k k' :
  k <> k' -> Dict.get k' (Dict.del k d) = Dict.get k' d.
Proof.
  intros Hne. induction d as [|[k0 v0] d IH]; [reflexivity|].
  unfold Dict.del in *. cbn [filter fst Dict.get].
  destruct (k =? k0) eqn:E; cbn [negb].
  - apply Z.eqb_eq in E. subst k0.
    destruct (k' =? k) eqn:E'; [apply Z.eqb_eq in E'; congruence|exact IH].
  - cbn [Dict.get]. rewrite IH. reflexivity.
Qed.

Lemma get_set_same d k v : Dict.get k (Dict.set k v d) = Some v.
Proof.
  induction d as [|[k' v'] d IH]; cbn [Dict.set Dict.get].
  - rewrite Z.eqb_refl. reflexivity.
  - destruct (k =? k') eqn:E; cbn [Dict.get]; rewrite ?Z.eqb_refl, ?E; auto.
Qed.

Lemma get_set_other d k k' v :
  k <> k' -> Dict.get k' (Dict.set k v d) = Dict.get k' d.
Proof.
  intros Hne. induction d as [|[k0 v0] d IH]; cbn [Dict.set Dict.get].
  - destruct (k' =? k) eqn:E; [apply Z.eqb_eq in E; congruence|reflexivity].
  - destruct (k =? k0) eqn:E; cbn [Dict.get].
    + apply Z.eqb_eq in E. subst k0.
      destruct (k' =? k) eqn:E'; [apply Z.eqb_eq in E'; congruence|reflexivity].
    + rewrite IH. reflexivity.
Qed.

End DictFacts.

(* --------------------------------------------------------------------- *)
(** ** Replies whose request id is unknown *)
(* --------------------------------------------------------------------- *)

(** C5. A [contractDetails] reply whose request id is not a key of
    [requestedContracts] is answered by the warning alone: the handler
    returns, the receiver (every dictionary and both counters) is as it
    was, and the trace holds the base callback's answer log, the info line
    and the warning, so no request was sent. *)
Theorem contractDetails_unknown_reqId
  (reqId : Z) (details : ContractDetails) (self : IbApp) :
  Dict.mem reqId (requestedContracts self) = false ->
  contractDetails reqId details self =
  (Ok tt, self,
   [Answer "contractDetails";
    Log INFO (ContractDetailsReceived (summary details));
    Log WARNING (UnknownContractDetailsReqId reqId)]) /\
  count is_request (events_of (contractDetails reqId details self)) = O.
Proof.
  intros H. apply mem_false_get in H.
  assert (E : contractDetails reqId details self =
              (Ok tt, self,
               [Answer "contractDetails";
                Log INFO (ContractDetailsReceived (summary details));
                Log WARNING (UnknownContractDetailsReqId reqId)])).
  { unfold contractDetails, bind, emit, log, this. cbn.
    rewrite H. reflexivity. }
  split; [exact E|]. rewrite E. reflexivity.
Qed.

Lemma contractDetails_unknown_reqId_witness :
  let self := with_nextValidReqId (Some 8)
                (with_requestedContracts
                   [(7, mkContract "ES" "FUT" "GLOBEX" "ES" EmptyString EmptyString)]
                   (IbApp_init true true 0)) in
  let details :=
    mkContractDetails
      (mkContract "ES" "FUT" "GLOBEX" "ES" "201812" "ESZ8") "ES" in
  contractDetails 9 details self =
  (Ok tt, self,
   [Answer "contractDetails";
    Log INFO (ContractDetailsReceived (summary details));
    Log WARNING (UnknownContractDetailsReqId 9)]) /\
  count is_request (events_of (contractDetails 9 details self)) = O.
Proof.
  intros self details.
  apply (@contractDetails_unknown_reqId 9 details self).
  reflexivity.
Defined.

(** C7. [historicalData] and [tickPrice] look their request id up first
    and unguarded: when it is not a key of [historicalLookup]
    (resp. [marketDataLookup]) the handler raises [KeyError] with nothing
    logged, nothing deleted and no call to the record store, whereas
    [contractDetails] returns normally on an id it does not know. *)
Theorem lookup_handlers_raise_KeyError
  (update_item : string -> BarData -> bool)
  (reqId : Z) (bar : BarData) (tickType : Z) (price : float)
  (details : ContractDetails) (self : IbApp) :
  (Dict.mem reqId (historicalLookup self) = false ->
   historicalData update_item reqId bar self = (Raise (KeyError reqId), self, []))
  /\
  (Dict.mem reqId (marketDataLookup self) = false ->
   tickPrice reqId tickType price self = (Raise (KeyError reqId), self, []))
  /\
  (Dict.mem reqId (requestedContracts self) = false ->
   result_of (contractDetails reqId details self) = Ok tt).
Proof.
  repeat split; intros H; apply mem_false_get in H.
  - unfold historicalData, bind, this, raise. cbn. rewrite H. reflexivity.
  - unfold tickPrice, bind, this, raise. cbn. rewrite H. reflexivity.
  - unfold contractDetails, bind, emit, log, this. cbn.
    rewrite H. reflexivity.
Qed.

Lemma lookup_handlers_raise_KeyError_witness :
  let self := IbApp_init true true 0 in
  let bar := mkBarData "20181203" (Float 0) (Float 0) (Float 0) (Float 0) 10 3 in
  historicalData (fun _ _ => true) 5 bar self = (Raise (KeyError 5), self, [])
  /\ tickPrice 5 1 (Float 0) self = (Raise (KeyError 5), self, [])
  /\ result_of (contractDetails 5
                 (mkContractDetails Contract_new EmptyString) self) = Ok tt.
Proof.
  intros self bar.
  destruct (@lookup_handlers_raise_KeyError (fun _ _ => true) 5 bar 1 (Float 0)
              (mkContractDetails Contract_new EmptyString) self)
    as [Hh [Ht Hc]].
  split; [apply Hh; reflexivity|].
  split; [apply Ht; reflexivity|apply Hc; reflexivity].
Defined.

(* --------------------------------------------------------------------- *)
(** ** Terminal replies and the dictionaries *)
(* --------------------------------------------------------------------- *)

Lemma contractDetailsEnd_state (reqId : Z) (self : IbApp) :
  result_of (contractDetailsEnd reqId self) = Ok tt /\
  state_of (contractDetailsEnd reqId self) =
  (if Dict.mem reqId (requestedContracts self)
   then with_requestedContracts (Dict.del reqId (requestedContracts self)) self
   else self).
Proof.
  unfold contractDetailsEnd, bind, emit, log, this, when, modify, ret. cbn.
  destruct (Dict.mem reqId (requestedContracts self)); split; reflexivity.
Qed.

Lemma historicalData_state
  (update_item : string -> BarData -> bool)
  (reqId : Z) (bar : BarData) (self : IbApp) (sym : string) :
  Dict.get reqId (historicalLookup self) = Some sym ->
  result_of (historicalData update_item reqId bar self) = Ok tt /\
  state_of (historicalData update_item reqId bar self) =
  (if Dict.mem reqId (requestedHistoricalData self)
   then with_requestedHistoricalData
          (Dict.del reqId (requestedHistoricalData self)) self
   else self) /\
  filter is_request (events_of (historicalData update_item reqId bar self)) = [] /\
  In (UpdateItem sym bar) (events_of (historicalData update_item reqId bar self)).
Proof.
  intros H.
  unfold historicalData, UpdateQuote, bind, emit, log, this, when, modify, ret.
  cbn. rewrite H.
  destruct (Dict.mem reqId (requestedHistoricalData self));
    destruct (update_item sym bar); cbn; auto 10.
Qed.

Lemma tickPrice_state
  (tickerId tickType : Z) (price : float) (self : IbApp) (sym : string) :
  Dict.get tickerId (marketDataLookup self) = Some sym ->
  tickPrice tickerId tickType price self =
  (Ok tt,
   (if Dict.mem tickerId (requestedMarketData self)
    then with_requestedMarketData
           (Dict.del tickerId (requestedMarketData self)) self
    else self),
   [Log INFO (TickPriceMsg sym tickType price)]).
Proof.
  intros H.
  unfold tickPrice, bind, emit, log, this, when, modify, ret.
  cbn. rewrite H.
  destruct (Dict.mem tickerId (requestedMarketData self)); reflexivity.
Qed.

(** C4 (as the code has it).  A terminal reply removes the request id from
    the dictionary of pending requests of its kind: [contractDetailsEnd]
    from [requestedContracts], a [historicalData] bar from
    [requestedHistoricalData], a [tickPrice] from [requestedMarketData]
    (the last two for an id their lookup table knows).  The lookup tables
    [historicalLookup] and [marketDataLookup] are left as they were. *)
Theorem terminal_reply_removes_pending_request
  (update_item : string -> BarData -> bool)
  (reqId : Z) (bar : BarData) (tickType : Z) (price : float) (self : IbApp) :
  (let r := contractDetailsEnd reqId self in
   result_of r = Ok tt /\
   Dict.mem reqId (requestedContracts (state_of r)) = false)
  /\
  (Dict.mem reqId (historicalLookup self) = true ->
   let r := historicalData update_item reqId bar self in
   result_of r = Ok tt /\
   Dict.mem reqId (requestedHistoricalData (state_of r)) = false /\
   historicalLookup (state_of r) = historicalLookup self)
  /\
  (Dict.mem reqId (marketDataLookup self) = true ->
   let r := tickPrice reqId tickType price self in
   result_of r = Ok tt /\
   Dict.mem reqId (requestedMarketData (state_of r)) = false /\
   marketDataLookup (state_of r) = marketDataLookup self).
Proof.
  split; [|split].
  - destruct (contractDetailsEnd_state reqId self) as [Hr Hs].
    cbn zeta. rewrite Hr, Hs. split; [reflexivity|].
    destruct (Dict.mem reqId (requestedContracts self)) eqn:E;
      [apply mem_del_same|exact E].
  - unfold Dict.mem at 1.
    destruct (Dict.get reqId (historicalLookup self)) as [sym|] eqn:G;
      [intros _|discriminate].
    destruct (historicalData_state update_item reqId bar self G)
      as [Hr [Hs _]].
    cbn zeta. rewrite Hr, Hs. split; [reflexivity|].
    destruct (Dict.mem reqId (requestedHistoricalData self)) eqn:E.
    + split; [apply mem_del_same|reflexivity].
    + split; [exact E|reflexivity].
  - unfold Dict.mem at 1.
    destruct (Dict.get reqId (marketDataLookup self)) as [sym|] eqn:G;
      [intros _|discriminate].
    cbn zeta. rewrite (tickPrice_state reqId tickType price self G).
    unfold result_of, state_of. cbn [fst snd]. split; [reflexivity|].
    destruct (Dict.mem reqId (requestedMarketData self)) eqn:E.
    + split; [apply mem_del_same|reflexivity].
    + split; [exact E|reflexivity].
Qed.

Lemma terminal_reply_removes_pending_request_witness :
  (let r := historicalData (fun _ _ => true) 102 a_bar session_ABC in
   result_of r = Ok tt /\
   Dict.mem 102 (requestedHistoricalData (state_of r)) = false /\
   historicalLookup (state_of r) = historicalLookup session_ABC)
  /\
  (let r := tickPrice 101 1 (Float 0) session_ABC in
   result_of r = Ok tt /\
   Dict.mem 101 (requestedMarketData (state_of r)) = false /\
   marketDataLookup (state_of r) = marketDataLookup session_ABC).
Proof.
  split.
  - apply (@terminal_reply_removes_pending_request
             (fun _ _ => true) 102 a_bar 1 (Float 0) session_ABC).
    reflexivity.
  - apply (@terminal_reply_removes_pending_request
             (fun _ _ => true) 101 a_bar 1 (Float 0) session_ABC).
    reflexivity.
Defined.

(** C4 as stated fails for the lookup tables: in the session of the
    example, the entry of [historicalLookup] is still there after the bar
    of its request, and the entry of [marketDataLookup] after the first
    price tick of its request. *)
Lemma lookup_entries_survive_terminal_reply :
  Dict.mem 102 (historicalLookup session_ABC) = true /\
  Dict.mem 102
    (historicalLookup
       (state_of (historicalData (fun _ _ => true) 102 a_bar session_ABC)))
    = true /\
  Dict.mem 101 (marketDataLookup session_ABC) = true /\
  Dict.mem 101
    (marketDataLookup (state_of (tickPrice 101 1 (Float 0) session_ABC)))
    = true.
Proof. vm_compute. repeat split. Qed.

(* --------------------------------------------------------------------- *)
(** ** verify: the resync path *)
(* --------------------------------------------------------------------- *)

Lemma for_each_emit2 {X} (f g : X -> event) (xs : list X) (self : IbApp) :
  for_each xs (fun x => emit (f x) ;; emit (g x)) self =
  (Ok tt, self, flat_map (fun x => [f x; g x]) xs).
Proof.
  induction xs as [|x xs IH]; [reflexivity|].
  cbn [for_each flat_map]. unfold bind at 1. unfold bind at 1.
  unfold emit at 1 2. rewrite IH. reflexivity.
Qed.

Lemma guarded_replay (b : bool) (req : Z -> Contract -> event)
  (msg : string -> message) (field : IbApp -> Dict.t Contract) (self : IbApp) :
  when b
    (self0 <- this ;;
     for_each (Dict.items (field self0))
       (fun kv => emit (req (fst kv) (snd kv)) ;;
                  log INFO (msg (symbol (snd kv))))) self =
  (Ok tt, self, if b then replay req msg (field self) else []).
Proof.
  destruct b; [|reflexivity].
  unfold when, log, replay. unfold bind at 1. unfold this at 1.
  rewrite for_each_emit2. reflexivity.
Qed.

Lemma verify_run (self : IbApp) :
  verify self = (Ok tt, self, verify_trace self).
Proof.
  unfold verify, verify_trace.
  unfold bind at 1. unfold log at 1. unfold emit at 1.
  unfold bind at 1. unfold emit at 1.
  unfold bind at 1. unfold this at 1.
  unfold bind at 1. unfold log at 1. rewrite for_each_emit2.
  unfold bind at 1. unfold this at 1.
  unfold bind at 1. rewrite guarded_replay.
  unfold bind at 1. unfold this at 1.
  rewrite guarded_replay.
  reflexivity.
Qed.

Lemma mkt_request_ids_app (a b : list event) :
  mkt_request_ids (a ++ b) = mkt_request_ids a ++ mkt_request_ids b.
Proof.
  induction a as [|e a IH]; [reflexivity|].
  destruct e; cbn [app mkt_request_ids]; rewrite IH; reflexivity.
Qed.

Lemma hist_request_ids_app (a b : list event) :
  hist_request_ids (a ++ b) = hist_request_ids a ++ hist_request_ids b.
Proof.
  induction a as [|e a IH]; [reflexivity|].
  destruct e; cbn [app hist_request_ids]; rewrite IH; reflexivity.
Qed.

Lemma count_mkt_request (ev : list event) :
  count is_mkt_request ev = List.length (mkt_request_ids ev).
Proof.
  unfold count. induction ev as [|e ev IH]; [reflexivity|].
  destruct e; cbn [filter is_mkt_request mkt_request_ids List.length];
    rewrite ?IH; reflexivity.
Qed.

Lemma count_hist_request (ev : list event) :
  count is_hist_request ev = List.length (hist_request_ids ev).
Proof.
  unfold count. induction ev as [|e ev IH]; [reflexivity|].
  destruct e; cbn [filter is_hist_request hist_request_ids List.length];
    rewrite ?IH; reflexivity.
Qed.

Section ReplayIds.
Variable msg : string -> message.
Variable d : Dict.t Contract.

Lemma mkt_ids_replay_mkt :
  mkt_request_ids (replay ReqMktData msg d) = Dict.keys d.
Proof.
  unfold replay, Dict.keys, Dict.items.
  induction d as [|kv d' IH]; [reflexivity|].
  cbn [flat_map app mkt_request_ids map]. rewrite IH. reflexivity.
Qed.

Lemma hist_ids_replay_hist :
  hist_request_ids (replay ReqHistoricalData msg d) = Dict.keys d.
Proof.
  unfold replay, Dict.keys, Dict.items.
  induction d as [|kv d' IH]; [reflexivity|].
  cbn [flat_map app hist_request_ids map]. rewrite IH. reflexivity.
Qed.

Lemma mkt_ids_replay_hist :
  mkt_request_ids (replay ReqHistoricalData msg d) = [].
Proof.
  unfold replay, Dict.items.
  induction d as [|kv d' IH]; [reflexivity|].
  cbn [flat_map app mkt_request_ids]. exact IH.
Qed.

Lemma mkt_ids_replay_contract :
  mkt_request_ids (replay ReqContractDetails msg d) = [].
Proof.
  unfold replay, Dict.items.
  induction d as [|kv d' IH]; [reflexivity|].
  cbn [flat_map app mkt_request_ids]. exact IH.
Qed.

Lemma hist_ids_replay_mkt :
  hist_request_ids (replay ReqMktData msg d) = [].
Proof.
  unfold replay, Dict.items.
  induction d as [|kv d' IH]; [reflexivity|].
  cbn [flat_map app hist_request_ids]. exact IH.
Qed.

Lemma hist_ids_replay_contract :
  hist_request_ids (replay ReqContractDetails msg d) = [].
Proof.
  unfold replay, Dict.items.
  induction d as [|kv d' IH]; [reflexivity|].
  cbn [flat_map app hist_request_ids]. exact IH.
Qed.

End ReplayIds.

Lemma verify_trace_mkt_ids (self : IbApp) :
  mkt_request_ids (verify_trace self) =
  if subRealMD self then Dict.keys (requestedMarketData self) else [].
Proof.
  unfold verify_trace. rewrite !mkt_request_ids_app.
  rewrite mkt_ids_replay_contract.
  destruct (subHistMD self), (subRealMD self);
    rewrite ?mkt_ids_replay_hist, ?mkt_ids_replay_mkt; reflexivity.
Qed.

Lemma verify_trace_hist_ids (self : IbApp) :
  hist_request_ids (verify_trace self) =
  if subHistMD self then Dict.keys (requestedHistoricalData self) else [].
Proof.
  unfold verify_trace. rewrite !hist_request_ids_app.
  rewrite hist_ids_replay_contract.
  destruct (subHistMD self), (subRealMD self);
    rewrite ?hist_ids_replay_hist, ?hist_ids_replay_mkt, ?app_nil_r;
    reflexivity.
Qed.

(** C1 (as the code has it).  [verify] changes nothing in the receiver, so
    it allocates no id.  With both flags set it sends one market-data
    re-request per item of [requestedMarketData] and one historical
    re-request per item of [requestedHistoricalData], each under the key
    of its item, that is under the id the request was first sent with;
    a kind whose flag is unset is not re-requested. *)
Theorem verify_rerequests_under_pending_ids (self : IbApp) :
  let r := verify self in
  result_of r = Ok tt /\
  state_of r = self /\
  mkt_request_ids (events_of r) =
    (if subRealMD self then Dict.keys (requestedMarketData self) else []) /\
  hist_request_ids (events_of r) =
    (if subHistMD self then Dict.keys (requestedHistoricalData self) else []) /\
  count is_mkt_request (events_of r) =
    (if subRealMD self then Dict.len (requestedMarketData self) else O) /\
  count is_hist_request (events_of r) =
    (if subHistMD self then Dict.len (requestedHistoricalData self) else O).
Proof.
  cbn zeta. rewrite verify_run. unfold result_of, state_of, events_of.
  cbn [fst snd].
  rewrite count_mkt_request, count_hist_request.
  rewrite verify_trace_mkt_ids, verify_trace_hist_ids.
  repeat split.
  - destruct (subRealMD self); [|reflexivity].
    unfold Dict.keys, Dict.len. apply length_map.
  - destruct (subHistMD self); [|reflexivity].
    unfold Dict.keys, Dict.len. apply length_map.
Qed.

(** C1 as stated fails: in the session of the example one market-data and
    one historical request are pending, under the ids 101 and 102;
    [verify] re-requests them under these same ids, which the lookup
    tables already hold, and leaves the counter at 103. *)
Lemma verify_reuses_pending_ids :
  let r := verify session_ABC in
  subRealMD session_ABC = true /\ subHistMD session_ABC = true /\
  Dict.keys (marketDataLookup session_ABC) = [101] /\
  Dict.keys (historicalLookup session_ABC) = [102] /\
  mkt_request_ids (events_of r) = [101] /\
  hist_request_ids (events_of r) = [102] /\
  nextValidReqId session_ABC = Some 103 /\
  nextValidReqId (state_of r) = Some 103 /\
  ~ Forall (fun reqId => ~ In reqId (used_ids session_ABC))
           (mkt_request_ids (events_of r) ++ hist_request_ids (events_of r)).
Proof.
  vm_compute. repeat split.
  intros H. inversion H as [|x l Hx Hl]; subst. apply Hx.
  right. left. reflexivity.
Qed.

(* --------------------------------------------------------------------- *)
(** ** Trading class of futures *)
(* --------------------------------------------------------------------- *)

Lemma contractDetails_matched
  (reqId : Z) (details : ContractDetails) (self : IbApp)
  (contract : Contract) (c : Z) :
  Dict.get reqId (requestedContracts self) = Some contract ->
  ((symbol contract =? symbol (summary details))%string
   || (symbol contract =? marketName details)%string)%bool = true ->
  nextValidReqId self = Some c ->
  let r := contractDetails reqId details self in
  result_of r = Ok tt /\
  (subRealMD self = true ->
   Dict.get c (requestedMarketData (state_of r)) =
     Some (validated_contract details)) /\
  (subHistMD self = true ->
   Dict.get (if subRealMD self then c + 1 else c)
            (requestedHistoricalData (state_of r)) =
     Some (validated_contract details)) /\
  mkt_request_ids (events_of r) = (if subRealMD self then [c] else []) /\
  hist_request_ids (events_of r) =
    (if subHistMD self
     then [if subRealMD self then c + 1 else c] else []).
Proof.
  intros Hget Hmatch Hc.
  unfold contractDetails, bind, emit, log, this. cbn.
  rewrite Hget, Hmatch.
  destruct self as [real hist stamp oid rid rc rmd rhd mdl hl].
  cbn in Hc. subst rid.
  destruct real, hist; cbn; unfold result_of, state_of, events_of; cbn;
    repeat split; intros; try discriminate; try apply get_set_same.
Qed.

Lemma start_contract_normalized (sec : Security) :
  symbol (start_contract sec) = Symbol sec /\
  secType (start_contract sec) = ProductType sec /\
  exchange (start_contract sec) = Exchange sec /\
  normalized (start_contract sec).
Proof.
  unfold start_contract, normalized. cbn.
  destruct (ProductType sec =? "FUT")%string eqn:E; cbn;
    repeat split; try reflexivity; intros H;
    first [apply String.eqb_eq in E | apply String.eqb_neq in E];
    contradiction.
Qed.

Lemma start_loop (secs : list Security) :
  forall (self : IbApp) (c : Z),
    nextValidReqId self = Some c ->
    for_each secs
      (fun sec =>
         when (SubscriptionEnabled sec)
           (rId <- nextReqId ;;
            self0 <- this ;;
            modify (with_requestedContracts
                      (Dict.set rId (start_contract sec)
                                (requestedContracts self0))) ;;
            emit (ReqContractDetails rId (start_contract sec)))) self =
    (Ok tt,
     with_requestedContracts
       (registered (numbered c secs) (requestedContracts self))
       (with_nextValidReqId
          (Some (c + Z.of_nat (List.length (numbered c secs)))) self),
     map (fun kv => ReqContractDetails (fst kv) (snd kv)) (numbered c secs)).
Proof.
  induction secs as [|sec secs IH]; intros self c Hc.
  - cbn. destruct self; cbn in *; subst.
    unfold with_requestedContracts, with_nextValidReqId; cbn.
    rewrite Z.add_0_r. reflexivity.
  - cbn [for_each numbered]. unfold bind at 1.
    destruct (SubscriptionEnabled sec); cbn [when].
    + unfold bind at 1. rewrite (nextReqId_seeded self Hc).
      unfold bind at 1. unfold this at 1. unfold bind at 1.
      unfold modify at 1. unfold emit at 1. cbn [app].
      rewrite (IH _ (c + 1)) by (destruct self; reflexivity).
      cbn [map fst snd List.length registered fold_left app].
      destruct self; unfold with_requestedContracts, with_nextValidReqId;
        cbn.
      replace (Z.pos (Pos.of_succ_nat (List.length (numbered (c + 1) secs))))
        with (1 + Z.of_nat (List.length (numbered (c + 1) secs))) by lia.
      rewrite Z.add_assoc. reflexivity.
    + unfold ret at 1. rewrite (IH self c Hc). reflexivity.
Qed.

Lemma numbered_keys_ge (secs : list Security) :
  forall c k v, In (k, v) (numbered c secs) -> c <= k.
Proof.
  induction secs as [|sec secs IH]; intros c k v Hin; [contradiction|].
  cbn [numbered] in Hin. destruct (SubscriptionEnabled sec).
  - destruct Hin as [E|Hin]; [inversion E; lia|].
    apply IH in Hin. lia.
  - apply IH in Hin. exact Hin.
Qed.

Lemma get_registered_fresh (l : list (Z * Contract)) :
  forall (d : Dict.t Contract) (k : Z),
    (forall k' v, In (k', v) l -> k' <> k) ->
    Dict.get k (registered l d) = Dict.get k d.
Proof.
  induction l as [|[k0 v0] l IH]; intros d k Hfresh; [reflexivity|].
  cbn [registered fold_left fst snd].
  change (fold_left _ l ?x) with (registered l x).
  rewrite IH by (intros k' v Hin; apply (Hfresh k' v); right; exact Hin).
  apply get_set_other. apply (Hfresh k0 v0). left. reflexivity.
Qed.

Lemma get_registered_numbered (secs : list Security) :
  forall (c : Z) (d : Dict.t Contract) (k : Z) (v : Contract),
    In (k, v) (numbered c secs) ->
    Dict.get k (registered (numbered c secs) d) = Some v.
Proof.
  induction secs as [|sec secs IH]; intros c d k v Hin; [contradiction|].
  cbn [numbered] in *. destruct (SubscriptionEnabled sec).
  - cbn [registered fold_left fst snd].
    change (fold_left _ ?l ?x) with (registered l x).
    destruct Hin as [E|Hin].
    + inversion E; subst. rewrite get_registered_fresh.
      * apply get_set_same.
      * intros k' v' Hin' ->. apply numbered_keys_ge in Hin'. lia.
    + apply IH. exact Hin.
  - apply IH. exact Hin.
Qed.

Lemma contract_requests_map (l : list (Z * Contract)) :
  contract_requests
    (map (fun kv => ReqContractDetails (fst kv) (snd kv)) l) = l.
Proof.
  induction l as [|[k v] l IH]; [reflexivity|].
  cbn [map contract_requests fst snd]. rewrite IH. reflexivity.
Qed.

Lemma numbered_normalized (secs : list Security) :
  forall c k v, In (k, v) (numbered c secs) -> normalized v.
Proof.
  induction secs as [|sec secs IH]; intros c k v Hin; [contradiction|].
  cbn [numbered] in Hin. destruct (SubscriptionEnabled sec).
  - destruct Hin as [E|Hin]; [|apply (IH _ _ _ Hin)].
    inversion E. apply start_contract_normalized.
  - apply (IH _ _ _ Hin).
Qed.

Lemma start_run (secs : list Security) (self : IbApp) (c : Z) :
  nextValidReqId self = Some c ->
  start (Some secs) self =
  (Ok tt,
   with_requestedContracts
     (registered (numbered c secs) (requestedContracts self))
     (with_nextValidReqId
        (Some (c + Z.of_nat (List.length (numbered c secs)))) self),
   Log INFO (StartForReadData (subRealMD self) (subHistMD self))
   :: map (fun kv => ReqContractDetails (fst kv) (snd kv)) (numbered c secs)).
Proof.
  intros Hc. unfold start.
  unfold bind at 1. unfold this at 1.
  unfold bind at 1. unfold log at 1. unfold emit at 1.
  cbv zeta. rewrite (start_loop secs self Hc). reflexivity.
Qed.

(** C8 (as the code has it).  The contract [start] builds for an enabled
    item of the securities table, registers in [requestedContracts] and
    sends in its contract-details request has its trading class equal to
    its symbol when its product type is ['FUT'], and the empty trading
    class of a fresh [Contract] otherwise.  The descriptor built from a
    matching [contractDetails] reply and stored in [requestedMarketData]
    and [requestedHistoricalData] copies symbol, product type and trading
    class from the gateway's summary, for every product type. *)
Theorem trading_class_after_start_and_validation
  (secs : list Security) (reqId : Z) (details : ContractDetails)
  (contract : Contract) (self : IbApp) (c : Z) :
  nextValidReqId self = Some c ->
  (let r := start (Some secs) self in
   result_of r = Ok tt /\
   contract_requests (events_of r) = numbered c secs /\
   forall rId ct,
     In (rId, ct) (contract_requests (events_of r)) ->
     normalized ct /\
     Dict.get rId (requestedContracts (state_of r)) = Some ct)
  /\
  (Dict.get reqId (requestedContracts self) = Some contract ->
   ((symbol contract =? symbol (summary details))%string
    || (symbol contract =? marketName details)%string)%bool = true ->
   let r := contractDetails reqId details self in
   let hId := if subRealMD self then c + 1 else c in
   result_of r = Ok tt /\
   (subRealMD self = true ->
    exists v, Dict.get c (requestedMarketData (state_of r)) = Some v /\
              symbol v = symbol (summary details) /\
              secType v = secType (summary details) /\
              tradingClass v = tradingClass (summary details)) /\
   (subHistMD self = true ->
    exists v, Dict.get hId (requestedHistoricalData (state_of r)) = Some v /\
              symbol v = symbol (summary details) /\
              secType v = secType (summary details) /\
              tradingClass v = tradingClass (summary details))).
Proof.
  intros Hc. split.
  - cbn zeta. rewrite (start_run secs self Hc).
    unfold result_of, state_of, events_of. cbn [fst snd contract_requests].
    rewrite contract_requests_map.
    split; [reflexivity|]. split; [reflexivity|].
    intros rId ct Hin. split.
    + apply (numbered_normalized _ _ _ _ Hin).
    + destruct self; cbn. apply get_registered_numbered. exact Hin.
  - intros Hget Hmatch.
    destruct (contractDetails_matched reqId details self Hget Hmatch Hc)
      as [Hr [Hm [Hh _]]].
    cbn zeta. split; [exact Hr|]. split.
    + intros Hreal. exists (validated_contract details).
      split; [apply Hm; exact Hreal|]. repeat split.
    + intros Hhist. exists (validated_contract details).
      split; [apply Hh; exact Hhist|]. repeat split.
Qed.

Lemma trading_class_after_start_and_validation_witness :
  let self := state_of (nextValidId (Some [DAX]) 200 (IbApp_init true true 0)) in
  (let r := start (Some [ABC; DAX]) self in
   result_of r = Ok tt /\
   contract_requests (events_of r) =
     [(201, start_contract ABC); (202, start_contract DAX)] /\
   forall rId ct,
     In (rId, ct) (contract_requests (events_of r)) ->
     normalized ct /\
     Dict.get rId (requestedContracts (state_of r)) = Some ct)
  /\
  (let r := contractDetails 200 DAX_details self in
   result_of r = Ok tt /\
   (exists v, Dict.get 201 (requestedMarketData (state_of r)) = Some v /\
              symbol v = "DAX"%string /\
              secType v = "FUT"%string /\
              tradingClass v = "FDAX"%string) /\
   (exists v, Dict.get 202 (requestedHistoricalData (state_of r)) = Some v /\
              symbol v = "DAX"%string /\
              secType v = "FUT"%string /\
              tradingClass v = "FDAX"%string)).
Proof.
  intros self.
  destruct (@trading_class_after_start_and_validation
              [ABC; DAX] 200 DAX_details (start_contract DAX) self 201
              eq_refl) as [Hs Hv].
  split; [exact Hs|].
  destruct (Hv eq_refl eq_refl) as [Hr [Hm Hh]].
  split; [exact Hr|].
  split; [apply Hm; reflexivity|apply Hh; reflexivity].
Defined.

(** C8 as stated fails for the validated descriptor: for the DAX future
    the request built by [start] has trading class ["DAX"], while the
    descriptor stored after validation is a future with symbol ["DAX"] and
    the gateway's trading class ["FDAX"]. *)
Lemma validated_future_keeps_gateway_trading_class :
  (exists ct, Dict.get 200 (requestedContracts session_DAX) = Some ct /\
              secType ct = "FUT"%string /\
              tradingClass ct = symbol ct) /\
  (exists v, Dict.get 201 (requestedMarketData session_DAX) = Some v /\
             Dict.get 202 (requestedHistoricalData session_DAX) = Some v /\
             secType v = "FUT"%string /\
             symbol v = "DAX"%string /\
             tradingClass v = "FDAX"%string /\
             tradingClass v <> symbol v).
Proof.
  split.
  - exists (start_contract DAX). vm_compute. repeat split.
  - exists (validated_contract DAX_details). vm_compute.
    repeat split. discriminate.
Qed.

(* --------------------------------------------------------------------- *)
(** ** runnable: leaving the message loop *)
(* --------------------------------------------------------------------- *)

Lemma count_app (p : event -> bool) (a b : list event) :
  count p (a ++ b) = (count p a + count p b)%nat.
Proof. unfold count. rewrite filter_app, length_app. reflexivity. Qed.

Lemma verify_quiet : quiet verify.
Proof.
  intros self. rewrite verify_run. unfold events_of, silent. cbn [snd].
  unfold verify_trace, replay. rewrite !count_app.
  assert (H : forall (p : event -> bool) req msg (d : Dict.t Contract),
             (forall k c, p (req k c) = false) ->
             (forall m, p (Log INFO m) = false) ->
             count p (flat_map (fun kv : Z * Contract =>
                                  [req (fst kv) (snd kv);
                                   Log INFO (msg (symbol (snd kv)))])
                               (Dict.items d)) = O).
  { intros p req msg d Hreq Hlog. unfold count, Dict.items.
    induction d as [|kv d IH]; [reflexivity|].
    cbn [flat_map app filter]. rewrite Hreq, Hlog. exact IH. }
  destruct (subHistMD self), (subRealMD self);
    rewrite ?H by reflexivity; split; reflexivity.
Qed.

Section RunnableFacts.
Variable MAX_MSG_LEN : Z.
Variable read_fields : list byte -> list (list byte).
Variable interpret : list (list byte) -> M unit.
Variable func : M unit.
Hypothesis interpret_quiet : forall fields, quiet (interpret fields).
Hypothesis func_quiet : quiet func.

Lemma poll_accounted (t : tick) (self : IbApp) :
  accounted (poll MAX_MSG_LEN read_fields interpret func t self).
Proof.
  unfold poll, accounted, result_of, events_of.
  destruct (obs_get t) as [text| |e].
  - destruct (MAX_MSG_LEN <? Z.of_nat (List.length text)).
    + cbn. split; [reflexivity|]. left. split; reflexivity.
    + unfold bind, logging, emit, ret.
      pose proof (interpret_quiet (read_fields text) self) as [Hd Hb].
      unfold events_of in Hd, Hb.
      destruct (interpret (read_fields text) self) as [[[ []|e] s1] ev1];
        cbn [fst snd app] in *;
        change (Logging DEBUG (FieldsMsg (read_fields text)) :: ?l)
          with ([Logging DEBUG (FieldsMsg (read_fields text))] ++ l);
        rewrite ?count_app, ?app_nil_r, ?count_app, ?Hd, ?Hb;
        (split; [reflexivity|right; split; [discriminate|reflexivity]]).
  - unfold bind, this, when, logging, emit, ret, modify.
    destruct (30000000 <? obs_now t - lastStamp self).
    + pose proof (func_quiet self) as [Hd Hb].
      unfold events_of in Hd, Hb.
      destruct (func self) as [[[ []|e] s1] ev1];
        cbn [fst snd app] in *;
        rewrite ?count_app, ?app_nil_r, ?count_app, ?Hd, ?Hb;
        (split; [reflexivity|right; split; [discriminate|reflexivity]]).
    + cbn. split; [reflexivity|right; split; [discriminate|reflexivity]].
  - cbn. split; [reflexivity|right; split; [discriminate|reflexivity]].
Qed.

Lemma guarded_accounted (t : tick) (self : IbApp) :
  accounted (guarded MAX_MSG_LEN read_fields interpret func t self).
Proof.
  pose proof (poll_accounted t self) as [Heq Hcase].
  unfold guarded, try_except, accounted, result_of, events_of in *.
  destruct (poll MAX_MSG_LEN read_fields interpret func t self)
    as [[[fl|e] s1] ev1]; cbn [fst snd] in *.
  - split; assumption.
  - destruct Hcase as [[Habs _]|[_ Hb]]; [discriminate|].
    destruct e; cbn [fst snd];
      try (split; [assumption|right; split; [discriminate|assumption]]);
      unfold bind, logging, emit, ret, raise;
      try destruct (obs_hard t); cbn [fst snd app];
      rewrite ?count_app, Heq, Hb;
      (split; [reflexivity|right; split; [discriminate|reflexivity]]).
Qed.

Lemma iteration_accounted (t : tick) (self : IbApp) :
  accounted (iteration MAX_MSG_LEN read_fields interpret func t self).
Proof.
  pose proof (guarded_accounted t self) as [Heq Hcase].
  unfold iteration, bind, accounted, result_of, events_of in *.
  destruct (guarded MAX_MSG_LEN read_fields interpret func t self)
    as [[[[|]|e] s1] ev1]; cbn [fst snd] in *.
  - destruct Hcase as [[Habs _]|[_ Hb]]; [discriminate|].
    unfold logging, emit, ret. cbn [fst snd app].
    rewrite ?count_app, Heq, Hb.
    split; [reflexivity|right; split; [discriminate|reflexivity]].
  - unfold ret. rewrite app_nil_r. split; assumption.
  - split; assumption.
Qed.

(** While the loop runs the client has not disconnected; once the loop is
    left, it has disconnected once if it left on an oversized frame and
    not at all otherwise. *)
Lemma message_loop_accounted (script : list tick) :
  forall self,
    let r := message_loop MAX_MSG_LEN read_fields interpret func script self in
    count is_disconnect (events_of r) = count is_bad_length (events_of r) /\
    (count is_bad_length (events_of r) <= 1)%nat /\
    (result_of r = Ok Running -> count is_bad_length (events_of r) = O).
Proof.
  induction script as [|t script IH]; intros self; cbn zeta.
  - cbn. repeat split; auto.
  - cbn [message_loop].
    destruct (negb (obs_done t) && (obs_connected t || obs_queued t))%bool;
      [|cbn; repeat split; auto; discriminate].
    pose proof (iteration_accounted t self) as [Heq Hcase].
    unfold bind, result_of, events_of in *.
    destruct (iteration MAX_MSG_LEN read_fields interpret func t self)
      as [[[[|]|e] s1] ev1]; cbn [fst snd] in *.
    + destruct Hcase as [[Habs _]|[_ Hb]]; [discriminate|].
      specialize (IH s1). cbn zeta in IH.
      unfold result_of, events_of in IH.
      destruct (message_loop MAX_MSG_LEN read_fields interpret func script s1)
        as [[r2 s2] ev2]; cbn [fst snd] in *.
      destruct IH as [IH1 [IH2 IH3]].
      rewrite !count_app, Heq, Hb, IH1. cbn [Nat.add].
      repeat split; assumption.
    + destruct Hcase as [[_ Hb]|[Habs _]]; [|congruence].
      unfold ret. cbv beta iota. cbn [fst snd]. rewrite app_nil_r, Heq, Hb.
      repeat split; auto; discriminate.
    + destruct Hcase as [[Habs _]|[_ Hb]]; [discriminate|].
      rewrite Heq, Hb. repeat split; auto; discriminate.
Qed.

End RunnableFacts.

Lemma sample_interpret_quiet (fields : list (list byte)) :
  quiet (sample_interpret fields).
Proof.
  intros self. unfold sample_interpret.
  destruct fields as [|[|kind [|? ?]] [|[|i [|? ?]] [|? ?]]];
    try (split; reflexivity).
  destruct kind; try (split; reflexivity).
  - unfold contractDetailsEnd, bind, emit, log, this, when, modify, ret. cbn.
    destruct (Dict.mem _ _); split; reflexivity.
  - unfold tickSize, bind, emit, log, this, raise. cbn.
    destruct (Dict.get _ _); split; reflexivity.
Qed.

(** A frame longer than [MAX_MSG_LEN] ends the run at once: the error is
    reported, the loop disconnects and breaks, and the cleanup disconnects
    again. *)
Lemma runnable_oversized_frame
  (MAX_MSG_LEN : Z) (read_fields : list byte -> list (list byte))
  (interpret : list (list byte) -> M unit) (func : M unit)
  (t : tick) (script : list tick) (text : list byte) (self : IbApp) :
  obs_done t = false -> obs_connected t = true ->
  obs_get t = Frame text ->
  MAX_MSG_LEN < Z.of_nat (List.length text) ->
  runnable MAX_MSG_LEN read_fields interpret func (t :: script) self =
  (Ok Exited, self, [WrapperError (List.length text); Disconnect; Disconnect]).
Proof.
  intros Hdone Hconn Hget Hlen. apply Z.ltb_lt in Hlen.
  unfold runnable. cbn [message_loop]. rewrite Hdone, Hconn. cbn [negb andb orb].
  unfold bind at 1. unfold iteration. unfold bind at 1.
  unfold guarded, try_except, poll. rewrite Hget, Hlen.
  reflexivity.
Qed.

(** C9 (as the code has it).  Let the decoder's handlers and the probe
    never call [self.disconnect()] themselves.  While the loop is running
    the client has not disconnected.  However the loop is left (its
    condition, [break], or an exception that goes on to the caller), the
    cleanup calls [self.disconnect()] once, as the last action of
    [runnable]; this is the only call unless the loop was left on an
    oversized frame, in which case the loop body had already called it
    once before breaking. *)
Theorem runnable_disconnects_on_exit
  (MAX_MSG_LEN : Z) (read_fields : list byte -> list (list byte))
  (interpret : list (list byte) -> M unit) (func : M unit)
  (script : list tick) (self : IbApp) :
  (forall fields, quiet (interpret fields)) ->
  quiet func ->
  let r := runnable MAX_MSG_LEN read_fields interpret func script self in
  (result_of r = Ok Running -> count is_disconnect (events_of r) = O) /\
  (result_of r <> Ok Running ->
   (exists ev, events_of r = ev ++ [Disconnect]) /\
   count is_disconnect (events_of r) = S (count is_bad_length (events_of r)) /\
   (count is_bad_length (events_of r) <= 1)%nat).
Proof.
  intros Hi Hf. cbn zeta.
  pose proof (@message_loop_accounted MAX_MSG_LEN read_fields interpret func
                Hi Hf script self) as H.
  cbn zeta in H. unfold runnable, result_of, events_of in *.
  destruct (message_loop MAX_MSG_LEN read_fields interpret func script self)
    as [[[[|]|e] s1] ev1]; cbn [fst snd] in *;
    destruct H as [Heq [Hle Hrun]].
  - split; [discriminate|]. intros _. split; [exists ev1; reflexivity|].
    rewrite !count_app, Heq. cbn. split; lia.
  - split; [|congruence]. intros _. rewrite Heq. apply Hrun. reflexivity.
  - split; [discriminate|]. intros _. split; [exists ev1; reflexivity|].
    rewrite !count_app, Heq. cbn. split; lia.
Qed.

Lemma runnable_disconnects_on_exit_witness :
  let r := loop 16 sample_read_fields sample_interpret
             [connected_tick Empty 31000000 false;
              connected_tick (Frame [xff]) 0 false;
              closed_tick] session_ABC in
  (result_of r = Ok Running -> count is_disconnect (events_of r) = O) /\
  (result_of r <> Ok Running ->
   (exists ev, events_of r = ev ++ [Disconnect]) /\
   count is_disconnect (events_of r) = S (count is_bad_length (events_of r)) /\
   (count is_bad_length (events_of r) <= 1)%nat).
Proof.
  apply (@runnable_disconnects_on_exit 16 sample_read_fields sample_interpret
           verify).
  - exact sample_interpret_quiet.
  - exact verify_quiet.
Defined.

(** C9 as stated fails on an oversized frame: [self.disconnect()] is
    called twice, once before the [break] and once by the cleanup. *)
Lemma runnable_oversized_frame_disconnects_twice :
  let r := loop ibapi_MAX_MSG_LEN sample_read_fields sample_interpret
             [connected_tick (Frame oversized_frame) 0 false] session_ABC in
  result_of r = Ok Exited /\
  count is_disconnect (events_of r) = 2%nat /\
  count is_disconnect (events_of r) <> 1%nat.
Proof.
  cbn zeta. unfold loop.
  rewrite (@runnable_oversized_frame ibapi_MAX_MSG_LEN sample_read_fields
             sample_interpret verify
             (connected_tick (Frame oversized_frame) 0 false) []
             oversized_frame session_ABC eq_refl eq_refl eq_refl).
  - unfold result_of, events_of, count.
    cbn [fst snd filter is_disconnect List.length].
    repeat split. discriminate.
  - unfold oversized_frame, ibapi_MAX_MSG_LEN.
    rewrite repeat_length, Z2Nat.id; lia.
Qed.

(** The loop is left at the latest when its condition fails. *)
Lemma runnable_leaves_when_condition_fails
  (MAX_MSG_LEN : Z) (read_fields : list byte -> list (list byte))
  (interpret : list (list byte) -> M unit) (func : M unit)
  (script : list tick) (t : tick) :
  (negb (obs_done t) && (obs_connected t || obs_queued t))%bool = false ->
  forall self,
    result_of (runnable MAX_MSG_LEN read_fields interpret func
                 (script ++ [t]) self) <> Ok Running.
Proof.
  intros Hcond.
  assert (H : forall self,
             result_of (message_loop MAX_MSG_LEN read_fields interpret func
                          (script ++ [t]) self) <> Ok Running).
  { induction script as [|t0 script IH]; intros self.
    - cbn [app message_loop]. rewrite Hcond. discriminate.
    - cbn [app message_loop].
      destruct (negb (obs_done t0) && (obs_connected t0 || obs_queued t0))%bool;
        [|discriminate].
      unfold bind, result_of.
      destruct (iteration MAX_MSG_LEN read_fields interpret func t0 self)
        as [[[[|]|e] s1] ev1]; cbn [fst]; try discriminate.
      specialize (IH s1). unfold result_of in IH.
      destruct (message_loop MAX_MSG_LEN read_fields interpret func
                  (script ++ [t]) s1) as [[r2 s2] ev2].
      exact IH. }
  intros self. specialize (H self). unfold runnable, result_of in *.
  destruct (message_loop MAX_MSG_LEN read_fields interpret func
              (script ++ [t]) self) as [[[[|]|e] s1] ev1]; cbn [fst] in *;
    congruence.
Qed.

(** The ways out of the loop, on the session of the example. *)
Example loop_normal_exit :
  loop 16 sample_read_fields sample_interpret
    [connected_tick (Frame [x01; x64]) 0 false; closed_tick] session_ABC =
  (Ok Exited,
   with_requestedContracts [] session_ABC,
   [Logging DEBUG (FieldsMsg [[x01]; [x64]]);
    Answer "contractDetailsEnd"; Log INFO (ContractDetailsEndMsg 100);
    Logging DEBUG ConnQueueMsg;
    Disconnect]).
Proof. vm_compute. reflexivity. Qed.

Example loop_undecodable_frame :
  loop 16 sample_read_fields sample_interpret
    [connected_tick (Frame [xff]) 0 false; closed_tick] session_ABC =
  (Ok Exited, session_ABC,
   [Logging DEBUG (FieldsMsg [[xff]]);
    Logging INFO BadMessageMsg; ConnDisconnect;
    Logging DEBUG ConnQueueMsg;
    Disconnect]).
Proof. vm_compute. reflexivity. Qed.

Example loop_handler_exception :
  loop 16 sample_read_fields sample_interpret
    [connected_tick (Frame [x03; x07]) 0 false; closed_tick] session_ABC =
  (Raise (KeyError 7), session_ABC,
   [Logging DEBUG (FieldsMsg [[x03]; [x07]]); Disconnect]).
Proof. vm_compute. reflexivity. Qed.

Example loop_interrupt :
  loop 16 sample_read_fields sample_interpret
    [connected_tick (Interrupted KeyboardInterrupt) 0 false;
     connected_tick (Interrupted KeyboardInterrupt) 0 true;
     closed_tick] session_ABC =
  (Raise SystemExit, session_ABC,
   [Logging INFO DetectedInterrupt; KeyboardInterruptCb;
    Logging DEBUG ConnQueueMsg;
    Logging INFO DetectedInterrupt; KeyboardInterruptCb;
    Disconnect]).
Proof. vm_compute. reflexivity. Qed.

Example loop_still_running :
  result_of
    (loop 16 sample_read_fields sample_interpret
       [connected_tick Empty 31000000 false] session_ABC) = Ok Running /\
  count is_request
    (events_of
       (loop 16 sample_read_fields sample_interpret
          [connected_tick Empty 31000000 false] session_ABC)) = 4%nat.
Proof. vm_compute. split; reflexivity. Qed.

(** The reply handlers of [IbApp] never call [self.disconnect()], so a
    decoder that dispatches to them meets the assumption made on
    [interpret] above. *)
Lemma reply_handlers_quiet
  (update_item : string -> BarData -> bool)
  (reqId : Z) (details : ContractDetails) (bar : BarData)
  (tickType size : Z) (price : float) :
  quiet (contractDetails reqId details) /\
  quiet (contractDetailsEnd reqId) /\
  quiet (historicalData update_item reqId bar) /\
  quiet (tickPrice reqId tickType price) /\
  quiet (tickSize reqId tickType size).
Proof.
  repeat match goal with |- _ /\ _ => split end; intros self;
    destruct self as [real hist stamp oid rid rc rmd rhd mdl hl]; split.
  1,2: unfold contractDetails, nextReqId,
         bind, emit, log, this, when, modify, ret, raise; cbn;
       destruct (Dict.get reqId rc) as [contract|]; [|reflexivity];
       destruct ((symbol contract =? symbol (summary details))%string
                 || (symbol contract =? marketName details)%string)%bool;
         [|reflexivity];
       destruct real, hist, rid; reflexivity.
  1,2: unfold contractDetailsEnd, bind, emit, log, this, when, modify, ret;
       cbn; destruct (Dict.mem reqId rc); reflexivity.
  1,2: unfold historicalData, UpdateQuote,
         bind, emit, log, this, when, modify, ret, raise; cbn;
       destruct (Dict.get reqId hl) as [sym|]; [|reflexivity]; cbn;
       destruct (Dict.mem reqId rhd), (update_item sym bar); reflexivity.
  1,2: unfold tickPrice, bind, emit, log, this, when, modify, ret, raise;
       cbn; destruct (Dict.get reqId mdl) as [sym|]; [|reflexivity]; cbn;
       destruct (Dict.mem reqId rmd); reflexivity.
  1,2: unfold tickSize, bind, emit, log, this, raise; cbn;
       destruct (Dict.get reqId mdl) as [sym|]; reflexivity.
Qed.

(* ===================================================================== *)
(** * Further properties of the program *)
(* ===================================================================== *)

(* --------------------------------------------------------------------- *)
(** ** Utils.reliable, for every wrapped operation *)
(* --------------------------------------------------------------------- *)

Section ReliableBounds.
Context {A W : Type}.
Variable func : W -> option A * W.

Lemma reliable_first_value (k : nat) (s : W) (v : A) :
  (k <= 10)%nat ->
  (forall i, (i < k)%nat -> Utils.answer func i s = None) ->
  Utils.answer func k s = Some v ->
  Utils.reliable func s =
  Utils.Locals (Z.of_nat k) (Some v) (Utils.after func (S k) s)
               (Utils.Invoke :: Utils.backoff 0 k).
Proof.
  intros Hk Hnone Hval. destruct k as [|j].
  - unfold Utils.reliable. cbn [Utils.result].
    unfold Utils.answer in Hval. cbn [Utils.after] in Hval |- *.
    rewrite Hval. reflexivity.
  - rewrite (@reliable_nones A W func j) by (try lia; intros; apply Hnone; lia).
    rewrite while_loop_step.
    cbn [Utils.tries Utils.result Utils.world Utils.trace].
    destruct (Z_lt_dec (Z.of_nat j) 10) as [_|Hge]; [|lia].
    rewrite while_loop_step.
    cbn [Utils.tries Utils.result Utils.world Utils.trace].
    unfold Utils.answer in Hval. rewrite Hval.
    f_equal; [lia| |].
    + symmetry. apply after_succ.
    + rewrite backoff_snoc. rewrite Z.add_0_l. reflexivity.
Qed.

Lemma reliable_all_none (s : W) :
  (forall i, (i <= 10)%nat -> Utils.answer func i s = None) ->
  Utils.reliable func s =
  Utils.Locals 10 None (Utils.after func 11 s)
               (Utils.Invoke :: Utils.backoff 0 10).
Proof.
  intros Hnone.
  rewrite (@reliable_nones A W func 10) by (try lia; assumption).
  rewrite while_loop_step. reflexivity.
Qed.

(** Among the first [m] answers either all are [None] or there is a first
    one that is a value. *)
Lemma first_value_or_none (s : W) (m : nat) :
  (forall i, (i < m)%nat -> Utils.answer func i s = None) \/
  (exists k v, (k < m)%nat /\ Utils.answer func k s = Some v /\
               forall i, (i < k)%nat -> Utils.answer func i s = None).
Proof.
  induction m as [|m IH].
  - left. intros i Hi. lia.
  - destruct IH as [Hnone|[k [v [Hk [Hv Hbefore]]]]].
    + destruct (Utils.answer func m s) as [v|] eqn:E.
      * right. exists m, v. repeat split; [lia|exact E|exact Hnone].
      * left. intros i Hi. destruct (Nat.eq_dec i m) as [->|Hne];
          [exact E|apply Hnone; lia].
    + right. exists k, v. repeat split; [lia|exact Hv|exact Hbefore].
Qed.

End ReliableBounds.

(** X1. Whatever the wrapped operation does, the wrapper invokes it at
    least once and at most 11 times; after [n] invocations it has slept
    [2, 4, ..., 2^(n-1)], that is [2^n - 2] and never more than 2046 time
    units, and [tries] stands at [n - 1]. *)
Theorem reliable_bounded
  (A W : Type) (func : W -> option A * W) (s : W) :
  let l := Utils.reliable func s in
  let n := Utils.invocations (Utils.trace l) in
  (1 <= n <= 11)%nat /\
  Utils.trace l = Utils.Invoke :: Utils.backoff 0 (n - 1) /\
  Utils.tries l = Z.of_nat n - 1 /\
  Utils.delays (Utils.trace l) = map (fun i => 2 ^ Z.of_nat i) (seq 1 (n - 1)) /\
  Utils.slept (Utils.trace l) = 2 ^ Z.of_nat n - 2 /\
  Utils.slept (Utils.trace l) <= 2046 /\
  Utils.world l = Utils.after func n s.
Proof.
  cbn zeta.
  assert (Hshape : exists k, (k <= 10)%nat /\ exists r,
             Utils.reliable func s =
             Utils.Locals (Z.of_nat k) r (Utils.after func (S k) s)
                          (Utils.Invoke :: Utils.backoff 0 k)).
  { destruct (first_value_or_none func s 11) as [Hnone|[k [v [Hk [Hv Hb]]]]].
    - exists 10%nat. split; [lia|]. exists None.
      apply reliable_all_none. intros i Hi. apply Hnone. lia.
    - exists k. split; [lia|]. exists (Some v).
      apply reliable_first_value; [lia|exact Hb|exact Hv]. }
  destruct Hshape as [k [Hk [r E]]]. rewrite E.
  cbn [Utils.trace Utils.tries Utils.world].
  assert (Hn : Utils.invocations (Utils.Invoke :: Utils.backoff 0 k) = S k).
  { change (Utils.Invoke :: Utils.backoff 0 k)
      with ([Utils.Invoke] ++ Utils.backoff 0 k).
    rewrite invocations_app, invocations_backoff. reflexivity. }
  rewrite Hn. replace (S k - 1)%nat with k by lia.
  assert (Hs : Utils.slept (Utils.Invoke :: Utils.backoff 0 k)
               = 2 ^ Z.of_nat (S k) - 2).
  { change (Utils.Invoke :: Utils.backoff 0 k)
      with ([Utils.Invoke] ++ Utils.backoff 0 k).
    rewrite slept_app, slept_backoff by lia.
    replace (0 + Z.of_nat k + 1) with (Z.of_nat (S k)) by lia.
    unfold Utils.slept. simpl. lia. }
  assert (Hp : 2 ^ Z.of_nat (S k) <= 2048).
  { change 2048 with (2 ^ 11). apply Z.pow_le_mono_r; lia. }
  split; [lia|]. split; [reflexivity|]. split; [lia|].
  split; [|split; [exact Hs|split; [rewrite Hs; lia|reflexivity]]].
  cbn [Utils.delays]. rewrite delays_backoff. apply map_ext.
  intros i. reflexivity.
Qed.

(** X2. The wrapper returns the first value among the first 11 answers of
    the wrapped operation, and stops invoking it there; it returns [None]
    exactly when these 11 answers are all [None].  In particular a value
    that only comes on the 11th invocation, the last retry, is returned. *)
Theorem reliable_returns_first_value
  (A W : Type) (func : W -> option A * W) (s : W) :
  let l := Utils.reliable func s in
  (Utils.result l = None <->
   forall i, (i <= 10)%nat -> Utils.answer func i s = None) /\
  (forall v, Utils.result l = Some v ->
     exists k, (k <= 10)%nat /\
               Utils.answer func k s = Some v /\
               (forall i, (i < k)%nat -> Utils.answer func i s = None) /\
               Utils.invocations (Utils.trace l) = S k).
Proof.
  cbn zeta.
  destruct (first_value_or_none func s 11) as [Hnone|[k [v [Hk [Hv Hb]]]]].
  - rewrite reliable_all_none by (intros i Hi; apply Hnone; lia).
    cbn [Utils.result]. split.
    + split; [intros _ i Hi; apply Hnone; lia|reflexivity].
    + intros v Habs. discriminate.
  - rewrite (reliable_first_value func (k:=k) s (v:=v)) by (try lia; assumption).
    cbn [Utils.result Utils.trace]. split.
    + split; [discriminate|]. intros Hall.
      rewrite Hall in Hv by lia. discriminate.
    + intros v' Hv'. inversion Hv'; subst v'. exists k.
      repeat split; [lia|exact Hv|exact Hb|].
      change (Utils.Invoke :: Utils.backoff 0 k)
        with ([Utils.Invoke] ++ Utils.backoff 0 k).
      rewrite invocations_app, invocations_backoff. reflexivity.
Qed.

(* --------------------------------------------------------------------- *)
(** ** getSecurities and the bootstrap *)
(* --------------------------------------------------------------------- *)

Section GetSecuritiesFacts.
Variable table : nat -> scan_outcome.

Lemma getSecurities_body_scans (w : scanner) :
  scans (snd (getSecurities_body table w)) = S (scans w) /\
  fst (getSecurities_body table w) = scanned_items (table (scans w)).
Proof.
  unfold getSecurities_body. destruct (table (scans w)); split; reflexivity.
Qed.

Lemma after_scans (i : nat) :
  forall w, scans (Utils.after (getSecurities_body table) i w)
            = (scans w + i)%nat.
Proof.
  induction i as [|i IH]; intros w; cbn [Utils.after]; [lia|].
  rewrite IH. destruct (getSecurities_body_scans w) as [-> _]. lia.
Qed.

Lemma answer_scan (i : nat) (w : scanner) :
  Utils.answer (getSecurities_body table) i w
  = scanned_items (table (scans w + i)%nat).
Proof.
  unfold Utils.answer.
  destruct (getSecurities_body_scans
              (Utils.after (getSecurities_body table) i w)) as [_ ->].
  rewrite after_scans. reflexivity.
Qed.

End GetSecuritiesFacts.

(** X3. [getSecurities] returns the items of the first scan, among at most
    11, that answers with an ['Items'] key: scans that raise and responses
    without the key are retried after the backoff delay, and a response
    whose item list is empty is returned as it is, without a retry. *)
Theorem getSecurities_returns_first_items
  (table : nat -> scan_outcome) (w : scanner) (k : nat)
  (items : list Security) :
  (k <= 10)%nat ->
  (forall i, (i < k)%nat -> scanned_items (table (scans w + i)%nat) = None) ->
  table (scans w + k)%nat = ScanResponse (Some items) ->
  let l := getSecurities table w in
  Utils.result l = Some items /\
  scans (Utils.world l) = (scans w + k + 1)%nat /\
  Utils.invocations (Utils.trace l) = S k /\
  Utils.slept (Utils.trace l) = 2 ^ (Z.of_nat k + 1) - 2.
Proof.
  intros Hk Hnone Hval. cbn zeta. unfold getSecurities.
  rewrite (reliable_first_value (getSecurities_body table) (k:=k) w (v:=items));
    [|exact Hk| |].
  - cbn [Utils.result Utils.world Utils.trace].
    split; [reflexivity|]. split; [rewrite after_scans; lia|].
    change (Utils.Invoke :: Utils.backoff 0 k)
      with ([Utils.Invoke] ++ Utils.backoff 0 k).
    rewrite invocations_app, invocations_backoff, slept_app, slept_backoff
      by lia.
    split; [reflexivity|]. unfold Utils.slept. simpl. lia.
  - intros i Hi. rewrite answer_scan. apply Hnone. exact Hi.
  - rewrite answer_scan, Hval. reflexivity.
Qed.

Lemma getSecurities_returns_first_items_witness :
  let table := fun n => match n with
                        | O => ScanClientError "throttled"
                        | S O => ScanResponse None
                        | _ => ScanResponse (Some [])
                        end in
  let l := getSecurities table (mkScanner 0 []) in
  Utils.result l = Some [] /\
  scans (Utils.world l) = 3%nat /\
  Utils.invocations (Utils.trace l) = 3%nat /\
  Utils.slept (Utils.trace l) = 6.
Proof.
  intros table.
  apply (@getSecurities_returns_first_items table (mkScanner 0 []) 2 []).
  - lia.
  - intros i Hi. destruct i as [|[|i]]; [reflexivity|reflexivity|lia].
  - reflexivity.
Defined.

(** X4. When none of the 11 scans gives items, [getSecurities] returns
    [None] after 2046 time units of sleep, and the handshake
    [nextValidId] that starts from this result raises [TypeError] in
    [start]: both counters are seeded by then, nothing is registered and
    no request is sent. *)
Theorem nextValidId_without_securities
  (table : nat -> scan_outcome) (w : scanner) (orderId : Z) (self : IbApp) :
  (forall i, (i <= 10)%nat -> scanned_items (table (scans w + i)%nat) = None) ->
  let l := getSecurities table w in
  Utils.result l = None /\
  scans (Utils.world l) = (scans w + 11)%nat /\
  Utils.slept (Utils.trace l) = 2046 /\
  nextValidId (Utils.result l) orderId self =
  (Raise TypeError,
   with_nextValidReqId (Some orderId)
     (with_nextValidOrderId (Some orderId) self),
   [Answer "nextValidId";
    Log INFO (SettingNextValidOrderId orderId);
    Log INFO (StartForReadData (subRealMD self) (subHistMD self))]).
Proof.
  intros Hnone. cbn zeta. unfold getSecurities.
  rewrite reliable_all_none
    by (intros i Hi; rewrite answer_scan; apply Hnone; exact Hi).
  cbn [Utils.result Utils.world Utils.trace].
  split; [reflexivity|]. split; [rewrite after_scans; lia|].
  split; [reflexivity|].
  destruct self; reflexivity.
Qed.

Lemma nextValidId_without_securities_witness :
  let table := fun _ : nat => ScanException "timeout" in
  let l := getSecurities table (mkScanner 0 []) in
  let self := IbApp_init true true 0 in
  Utils.result l = None /\
  scans (Utils.world l) = 11%nat /\
  Utils.slept (Utils.trace l) = 2046 /\
  nextValidId (Utils.result l) 100 self =
  (Raise TypeError,
   with_nextValidReqId (Some 100) (with_nextValidOrderId (Some 100) self),
   [Answer "nextValidId";
    Log INFO (SettingNextValidOrderId 100);
    Log INFO (StartForReadData true true)]).
Proof.
  intros table.
  apply (@nextValidId_without_securities table (mkScanner 0 []) 100
           (IbApp_init true true 0)).
  intros i Hi. reflexivity.
Defined.

(* --------------------------------------------------------------------- *)
(** ** The two counters; start *)
(* --------------------------------------------------------------------- *)

Lemma nextReqId_unseeded (self : IbApp) :
  nextValidReqId self = None -> nextReqId self = (Raise TypeError, self, []).
Proof.
  intros H. unfold nextReqId, bind, this, raise. rewrite H. reflexivity.
Qed.

Lemma start_loop_unseeded (secs : list Security) (self : IbApp) :
  nextValidReqId self = None ->
  for_each secs
    (fun sec =>
       when (SubscriptionEnabled sec)
         (rId <- nextReqId ;;
          self0 <- this ;;
          modify (with_requestedContracts
                    (Dict.set rId (start_contract sec)
                              (requestedContracts self0))) ;;
          emit (ReqContractDetails rId (start_contract sec)))) self =
  ((if existsb SubscriptionEnabled secs then Raise TypeError else Ok tt),
   self, []).
Proof.
  intros H. induction secs as [|sec secs IH]; [reflexivity|].
  cbn [for_each existsb]. unfold bind at 1.
  destruct (SubscriptionEnabled sec); cbn [when orb].
  - unfold bind at 1. rewrite (nextReqId_unseeded self H). reflexivity.
  - unfold ret at 1. rewrite IH.
    destruct (existsb SubscriptionEnabled secs); reflexivity.
Qed.

(** X5. Before the handshake has seeded the counter, [nextReqId] raises
    [TypeError] and changes nothing; [start] then raises [TypeError] at
    the first enabled security, with nothing registered and no request
    sent, and returns normally only if no security is enabled. *)
Theorem start_before_handshake (secs : list Security) (self : IbApp) :
  nextValidReqId self = None ->
  nextReqId self = (Raise TypeError, self, []) /\
  start (Some secs) self =
  ((if existsb SubscriptionEnabled secs then Raise TypeError else Ok tt),
   self,
   [Log INFO (StartForReadData (subRealMD self) (subHistMD self))]).
Proof.
  intros H. split; [apply nextReqId_unseeded; exact H|].
  unfold start.
  unfold bind at 1. unfold this at 1.
  unfold bind at 1. unfold log at 1. unfold emit at 1.
  cbv zeta. rewrite (start_loop_unseeded secs self H).
  destruct (existsb SubscriptionEnabled secs); reflexivity.
Qed.

Lemma start_before_handshake_witness :
  let self := IbApp_init true true 0 in
  nextReqId self = (Raise TypeError, self, []) /\
  start (Some [mkSecurity "OLD" "STK" "NYSE" false; ABC]) self =
  (Raise TypeError, self, [Log INFO (StartForReadData true true)]).
Proof.
  intros self.
  apply (@start_before_handshake
           [mkSecurity "OLD" "STK" "NYSE" false; ABC] self).
  reflexivity.
Defined.

(** X6. The request-id counter and the order-id counter do not touch each
    other: once both are seeded, drawing a request id and an order id
    gives the two current values and advances each counter by one, in
    whichever order the two are drawn. *)
Theorem counters_are_independent (self : IbApp) (c o : Z) :
  nextValidReqId self = Some c ->
  nextValidOrderId self = Some o ->
  let both := (with_nextValidOrderId (Some (o + 1))
                 (with_nextValidReqId (Some (c + 1)) self)) in
  (r <- nextReqId ;; q <- nextOrderId ;; ret (r, q)) self
    = (Ok (c, o), both, []) /\
  (q <- nextOrderId ;; r <- nextReqId ;; ret (r, q)) self
    = (Ok (c, o), both, []) /\
  nextValidOrderId (state_of (nextReqId self)) = Some o /\
  nextValidReqId (state_of (nextOrderId self)) = Some c.
Proof.
  intros Hc Ho. destruct self; cbn in Hc, Ho; subst.
  repeat split.
Qed.

Lemma counters_are_independent_witness :
  let self := state_of (nextValidId (Some []) 100 (IbApp_init true true 0)) in
  let both := (with_nextValidOrderId (Some 101)
                 (with_nextValidReqId (Some 101) self)) in
  (r <- nextReqId ;; q <- nextOrderId ;; ret (r, q)) self
    = (Ok (100, 100), both, []) /\
  (q <- nextOrderId ;; r <- nextReqId ;; ret (r, q)) self
    = (Ok (100, 100), both, []) /\
  nextValidOrderId (state_of (nextReqId self)) = Some 100 /\
  nextValidReqId (state_of (nextOrderId self)) = Some 100.
Proof.
  intros self.
  apply (@counters_are_independent self 100 100); reflexivity.
Defined.

Lemma numbered_shape (secs : list Security) :
  forall c,
    map fst (numbered c secs) =
      map (fun i => c + Z.of_nat i)
          (seq 0 (List.length (filter SubscriptionEnabled secs))) /\
    map snd (numbered c secs) =
      map start_contract (filter SubscriptionEnabled secs).
Proof.
  induction secs as [|sec secs IH]; intros c; [split; reflexivity|].
  cbn [numbered filter]. destruct (SubscriptionEnabled sec).
  - destruct (IH (c + 1)) as [Hk Hv].
    cbn [map fst snd List.length seq]. rewrite Hk, Hv. split; [|reflexivity].
    f_equal; [lia|].
    rewrite <- (seq_shift _ 0), map_map. apply map_ext. intros i. lia.
  - apply IH.
Qed.

(** X7. After the handshake, [start] sends one contract-details request
    for each enabled security of the table, in table order and under the
    consecutive ids [c, c+1, ...], and none for a disabled one; it leaves
    the counter advanced by the number of enabled securities and touches
    no dictionary but [requestedContracts]. *)
Theorem start_requests_enabled_securities
  (secs : list Security) (self : IbApp) (c : Z) :
  nextValidReqId self = Some c ->
  let enabled := filter SubscriptionEnabled secs in
  let r := start (Some secs) self in
  result_of r = Ok tt /\
  map fst (contract_requests (events_of r)) =
    map (fun i => c + Z.of_nat i) (seq 0 (List.length enabled)) /\
  map snd (contract_requests (events_of r)) = map start_contract enabled /\
  count is_request (events_of r) = List.length enabled /\
  nextValidReqId (state_of r) = Some (c + Z.of_nat (List.length enabled)) /\
  requestedMarketData (state_of r) = requestedMarketData self /\
  requestedHistoricalData (state_of r) = requestedHistoricalData self /\
  marketDataLookup (state_of r) = marketDataLookup self /\
  historicalLookup (state_of r) = historicalLookup self /\
  nextValidOrderId (state_of r) = nextValidOrderId self.
Proof.
  intros Hc. cbn zeta. rewrite (start_run secs self Hc).
  unfold result_of, state_of, events_of. cbn [fst snd contract_requests].
  rewrite contract_requests_map.
  destruct (numbered_shape secs c) as [Hk Hv].
  assert (Hlen : List.length (numbered c secs)
                 = List.length (filter SubscriptionEnabled secs)).
  { rewrite <- (length_map fst), Hk, length_map, length_seq. reflexivity. }
  split; [reflexivity|]. split; [exact Hk|]. split; [exact Hv|].
  split.
  - unfold count. cbn [filter is_request]. rewrite <- Hlen.
    clear. induction (numbered c secs) as [|kv l IH]; [reflexivity|].
    cbn [map filter is_request List.length]. rewrite IH. reflexivity.
  - rewrite Hlen. destruct self; repeat split.
Qed.

Lemma start_requests_enabled_securities_witness :
  let self := with_nextValidReqId (Some 7) (IbApp_init true true 0) in
  let secs := [ABC; mkSecurity "OLD" "STK" "NYSE" false; DAX] in
  let r := start (Some secs) self in
  result_of r = Ok tt /\
  map fst (contract_requests (events_of r)) = [7; 8] /\
  map snd (contract_requests (events_of r)) =
    [start_contract ABC; start_contract DAX] /\
  count is_request (events_of r) = 2%nat /\
  nextValidReqId (state_of r) = Some 9 /\
  requestedMarketData (state_of r) = requestedMarketData self /\
  requestedHistoricalData (state_of r) = requestedHistoricalData self /\
  marketDataLookup (state_of r) = marketDataLookup self /\
  historicalLookup (state_of r) = historicalLookup self /\
  nextValidOrderId (state_of r) = nextValidOrderId self.
Proof.
  intros self secs.
  apply (@start_requests_enabled_securities secs self 7).
  reflexivity.
Defined.

(* --------------------------------------------------------------------- *)
(** ** Reply handlers *)
(* --------------------------------------------------------------------- *)

(** X8. A [contractDetails] reply for a pending request whose symbol
    matches draws one new id per enabled kind, market data first: the
    market-data request is sent with the contract as it was requested,
    the historical request with the validated descriptor; both kinds
    store the validated descriptor as pending and its local symbol in
    their lookup table.  The pending contract request stays registered. *)
Theorem contractDetails_subscribes
  (reqId : Z) (details : ContractDetails) (self : IbApp)
  (contract : Contract) (c : Z) :
  Dict.get reqId (requestedContracts self) = Some contract ->
  ((symbol contract =? symbol (summary details))%string
   || (symbol contract =? marketName details)%string)%bool = true ->
  nextValidReqId self = Some c ->
  let validated := validated_contract details in
  let hId := if subRealMD self then c + 1 else c in
  let r := contractDetails reqId details self in
  result_of r = Ok tt /\
  events_of r =
    [Answer "contractDetails";
     Log INFO (ContractDetailsReceived (summary details))]
    ++ (if subRealMD self then [ReqMktData c contract] else [])
    ++ (if subHistMD self then [ReqHistoricalData hId validated] else []) /\
  nextValidReqId (state_of r) =
    Some (c + (if subRealMD self then 1 else 0)
            + (if subHistMD self then 1 else 0)) /\
  marketDataLookup (state_of r) =
    (if subRealMD self
     then Dict.set c (localSymbol validated) (marketDataLookup self)
     else marketDataLookup self) /\
  requestedMarketData (state_of r) =
    (if subRealMD self
     then Dict.set c validated (requestedMarketData self)
     else requestedMarketData self) /\
  historicalLookup (state_of r) =
    (if subHistMD self
     then Dict.set hId (localSymbol validated) (historicalLookup self)
     else historicalLookup self) /\
  requestedHistoricalData (state_of r) =
    (if subHistMD self
     then Dict.set hId validated (requestedHistoricalData self)
     else requestedHistoricalData self) /\
  requestedContracts (state_of r) = requestedContracts self /\
  nextValidOrderId (state_of r) = nextValidOrderId self.
Proof.
  intros Hget Hmatch Hc.
  unfold contractDetails, bind, emit, log, this. cbn.
  rewrite Hget, Hmatch.
  destruct self as [real hist stamp oid rid rc rmd rhd mdl hl].
  cbn in Hc. subst rid.
  destruct real, hist; cbn; unfold result_of, state_of, events_of; cbn;
    rewrite ?Z.add_0_r; repeat split; do 2 f_equal; lia.
Qed.

Lemma contractDetails_subscribes_witness :
  let self := state_of (nextValidId (Some [ABC]) 100 (IbApp_init true true 0)) in
  let validated := validated_contract ABC_details in
  let r := contractDetails 100 ABC_details self in
  result_of r = Ok tt /\
  events_of r =
    [Answer "contractDetails";
     Log INFO (ContractDetailsReceived (summary ABC_details));
     ReqMktData 101 (start_contract ABC);
     ReqHistoricalData 102 validated] /\
  nextValidReqId (state_of r) = Some 103 /\
  marketDataLookup (state_of r) = [(101, "ABC"%string)] /\
  requestedMarketData (state_of r) = [(101, validated)] /\
  historicalLookup (state_of r) = [(102, "ABC"%string)] /\
  requestedHistoricalData (state_of r) = [(102, validated)] /\
  requestedContracts (state_of r) = [(100, start_contract ABC)] /\
  nextValidOrderId (state_of r) = Some 100.
Proof.
  intros self validated.
  apply (@contractDetails_subscribes 100 ABC_details self
           (start_contract ABC) 101); reflexivity.
Defined.

(** X9. A [contractDetails] reply for a pending request whose symbol
    matches neither the symbol nor the market name of the details is
    dropped with a warning: nothing changes and nothing is sent.  The
    same holds, without the warning, for a matching reply when neither
    market data nor history is enabled. *)
Theorem contractDetails_drops_reply
  (reqId : Z) (details : ContractDetails) (self : IbApp)
  (contract : Contract) :
  Dict.get reqId (requestedContracts self) = Some contract ->
  let matches :=
    ((symbol contract =? symbol (summary details))%string
     || (symbol contract =? marketName details)%string)%bool in
  (matches = false ->
   contractDetails reqId details self =
   (Ok tt, self,
    [Answer "contractDetails";
     Log INFO (ContractDetailsReceived (summary details));
     Log WARNING (UnknownContractReceived (summary details))]))
  /\
  (matches = true -> subRealMD self = false -> subHistMD self = false ->
   contractDetails reqId details self =
   (Ok tt, self,
    [Answer "contractDetails";
     Log INFO (ContractDetailsReceived (summary details))])).
Proof.
  intros Hget. cbn zeta. split.
  - intros Hm. unfold contractDetails, bind, emit, log, this. cbn.
    rewrite Hget, Hm. reflexivity.
  - intros Hm Hreal Hhist.
    unfold contractDetails, bind, emit, log, this. cbn.
    rewrite Hget, Hm, Hreal. cbn. rewrite Hhist. reflexivity.
Qed.

Lemma contractDetails_drops_reply_witness :
  let self := state_of (nextValidId (Some [ABC]) 100 (IbApp_init true true 0)) in
  let quiet_self :=
    state_of (nextValidId (Some [ABC]) 100 (IbApp_init false false 0)) in
  contractDetails 100 DAX_details self =
   (Ok tt, self,
    [Answer "contractDetails";
     Log INFO (ContractDetailsReceived (summary DAX_details));
     Log WARNING (UnknownContractReceived (summary DAX_details))])
  /\
  contractDetails 100 ABC_details quiet_self =
   (Ok tt, quiet_self,
    [Answer "contractDetails";
     Log INFO (ContractDetailsReceived (summary ABC_details))]).
Proof.
  intros self quiet_self. split.
  - apply (@contractDetails_drops_reply 100 DAX_details self
             (start_contract ABC) eq_refl). reflexivity.
  - apply (@contractDetails_drops_reply 100 ABC_details quiet_self
             (start_contract ABC) eq_refl); reflexivity.
Defined.

Lemma keys_del {V : Type} (d : Dict.t V) (k : Z) :
  Dict.keys (Dict.del k d) = filter (fun k' => negb (k =? k')) (Dict.keys d).
Proof.
  unfold Dict.keys, Dict.del. induction d as [|[k0 v0] d IH]; [reflexivity|].
  cbn [filter map fst]. destruct (negb (k =? k0)); cbn [map fst];
    rewrite IH; reflexivity.
Qed.

(** X10. [contractDetailsEnd] always returns and sends nothing.  After
    it the request id is no key of [requestedContracts] any more: its
    entry, if there was one, is removed, and nothing else is: every other
    pending contract keeps its entry and its place, the other
    dictionaries and the counters are untouched, and a second end marker
    for the same id, like one for an id that was never pending, changes
    nothing. *)
Theorem contractDetailsEnd_removes_only_its_id (reqId : Z) (self : IbApp) :
  let r := contractDetailsEnd reqId self in
  result_of r = Ok tt /\
  count is_request (events_of r) = O /\
  Dict.mem reqId (requestedContracts (state_of r)) = false /\
  Dict.get reqId (requestedContracts (state_of r)) = None /\
  Dict.keys (requestedContracts (state_of r)) =
    filter (fun k => negb (reqId =? k)) (Dict.keys (requestedContracts self)) /\
  (forall k, k <> reqId ->
     Dict.get k (requestedContracts (state_of r)) =
     Dict.get k (requestedContracts self)) /\
  with_requestedContracts (requestedContracts self) (state_of r) = self /\
  (Dict.mem reqId (requestedContracts self) = false -> state_of r = self) /\
  state_of (contractDetailsEnd reqId (state_of r)) = state_of r.
Proof.
  cbn zeta. destruct (contractDetailsEnd_state reqId self) as [Hr Hs].
  assert (Hev : count is_request (events_of (contractDetailsEnd reqId self)) = O).
  { unfold contractDetailsEnd, bind, emit, log, this, when, modify, ret. cbn.
    destruct (Dict.mem reqId (requestedContracts self)); reflexivity. }
  assert (Hfilter : forall d : Dict.t Contract,
             Dict.mem reqId d = false ->
             filter (fun k => negb (reqId =? k)) (Dict.keys d) = Dict.keys d).
  { intros d Hm. rewrite <- keys_del. unfold Dict.del.
    f_equal. apply mem_false_get in Hm.
    induction d as [|[k0 v0] d IH]; [reflexivity|].
    cbn [Dict.get filter fst] in *. destruct (reqId =? k0); [discriminate|].
    cbn [negb]. rewrite IH by exact Hm. reflexivity. }
  split; [exact Hr|]. split; [exact Hev|].
  destruct (contractDetailsEnd_state reqId
              (state_of (contractDetailsEnd reqId self))) as [_ Hs2].
  rewrite Hs2, Hs. clear Hs2 Hs Hr Hev.
  destruct (Dict.mem reqId (requestedContracts self)) eqn:E.
  - destruct self as [real hist stamp oid rid rc rmd rhd mdl hl].
    cbn -[Dict.mem Dict.del Dict.get Dict.keys] in *.
    rewrite mem_del_same.
    split; [reflexivity|]. split; [apply get_del_same|].
    split; [apply keys_del|].
    repeat split; try discriminate.
    intros k Hk. apply get_del_other. congruence.
  - rewrite E.
    split; [reflexivity|]. split; [apply mem_false_get; exact E|].
    split; [symmetry; apply Hfilter; exact E|].
    destruct self; repeat split.
Qed.

Lemma contractDetailsEnd_removes_only_its_id_witness :
  let self := state_of (nextValidId (Some [ABC; DAX]) 100
                          (IbApp_init true true 0)) in
  let r := contractDetailsEnd 100 self in
  Dict.keys (requestedContracts self) = [100; 101] /\
  result_of r = Ok tt /\
  count is_request (events_of r) = O /\
  Dict.mem 100 (requestedContracts (state_of r)) = false /\
  Dict.keys (requestedContracts (state_of r)) = [101] /\
  Dict.get 101 (requestedContracts (state_of r)) = Some (start_contract DAX) /\
  state_of (contractDetailsEnd 5 self) = self /\
  state_of (contractDetailsEnd 100 (state_of r)) = state_of r.
Proof.
  intros self.
  destruct (contractDetailsEnd_removes_only_its_id 100 self)
    as [Hr [He [Hm [_ [Hk [Ho [_ [_ Hi]]]]]]]].
  destruct (contractDetailsEnd_removes_only_its_id 5 self)
    as [_ [_ [_ [_ [_ [_ [_ [Hu _]]]]]]]].
  split; [reflexivity|].
  split; [exact Hr|]. split; [exact He|]. split; [exact Hm|].
  split; [exact Hk|].
  split; [rewrite Ho by discriminate; reflexivity|].
  split; [apply Hu; reflexivity|exact Hi].
Defined.

Lemma historicalData_run
  (update_item : string -> BarData -> bool)
  (reqId : Z) (bar : BarData) (self : IbApp) (sym : string) :
  Dict.get reqId (historicalLookup self) = Some sym ->
  historicalData update_item reqId bar self =
  (Ok tt,
   (if Dict.mem reqId (requestedHistoricalData self)
    then with_requestedHistoricalData
           (Dict.del reqId (requestedHistoricalData self)) self
    else self),
   [Log INFO (HistoricalDataMsg sym bar);
    UpdateItem sym bar;
    if update_item sym bar
    then Log DEBUG StoreResponse else Log ERROR StoreFailed]).
Proof.
  intros H.
  unfold historicalData, UpdateQuote, bind, emit, log, this, when, modify, ret.
  cbn. rewrite H.
  destruct (Dict.mem reqId (requestedHistoricalData self));
    destruct (update_item sym bar); reflexivity.
Qed.



Lemma tickSize_run (tickerId tickType size : Z) (self : IbApp) (sym : string) :
  Dict.get tickerId (marketDataLookup self) = Some sym ->
  tickSize tickerId tickType size self =
  (Ok tt, self, [Log INFO (TickSizeMsg sym tickType size)]).
Proof.
  intros H. unfold tickSize, bind, emit, log, this. cbn. rewrite H.
  reflexivity.
Qed.

(** X12. For an id of [marketDataLookup], [tickSize] logs the tick and
    leaves the receiver as it is, so the request stays pending; the ticks
    that follow the first [tickPrice] (of either kind) are still resolved
    and logged and change nothing more. *)
Theorem ticks_after_first_price
  (tickerId tickType : Z) (price : float) (size : Z)
  (self : IbApp) (sym : string) :
  Dict.get tickerId (marketDataLookup self) = Some sym ->
  let after_price := state_of (tickPrice tickerId tickType price self) in
  tickSize tickerId tickType size self =
    (Ok tt, self, [Log INFO (TickSizeMsg sym tickType size)]) /\
  tickPrice tickerId tickType price after_price =
    (Ok tt, after_price, [Log INFO (TickPriceMsg sym tickType price)]) /\
  tickSize tickerId tickType size after_price =
    (Ok tt, after_price, [Log INFO (TickSizeMsg sym tickType size)]).
Proof.
  intros H. cbn zeta.
  split; [apply tickSize_run; exact H|].
  rewrite (tickPrice_state tickerId tickType price self H).
  unfold state_of. cbn [fst snd].
  set (s1 := if Dict.mem tickerId (requestedMarketData self)
             then with_requestedMarketData
                    (Dict.del tickerId (requestedMarketData self)) self
             else self).
  assert (H1 : Dict.get tickerId (marketDataLookup s1) = Some sym).
  { subst s1. destruct (Dict.mem tickerId (requestedMarketData self));
      [destruct self; exact H|exact H]. }
  assert (M1 : Dict.mem tickerId (requestedMarketData s1) = false).
  { subst s1. destruct (Dict.mem tickerId (requestedMarketData self)) eqn:E;
      [|exact E].
    destruct self. cbn -[Dict.mem Dict.del]. apply mem_del_same. }
  split; [|apply tickSize_run; exact H1].
  rewrite (tickPrice_state tickerId tickType price s1 H1), M1. reflexivity.
Qed.

Lemma ticks_after_first_price_witness :
  let after_price := state_of (tickPrice 101 4 (Float 0) session_ABC) in
  tickSize 101 4 300 session_ABC =
    (Ok tt, session_ABC, [Log INFO (TickSizeMsg "ABC" 4 300)]) /\
  tickPrice 101 4 (Float 0) after_price =
    (Ok tt, after_price, [Log INFO (TickPriceMsg "ABC" 4 (Float 0))]) /\
  tickSize 101 4 300 after_price =
    (Ok tt, after_price, [Log INFO (TickSizeMsg "ABC" 4 300)]).
Proof.
  apply (@ticks_after_first_price 101 4 (Float 0) 300 session_ABC
           "ABC"%string).
  reflexivity.
Defined.

(* --------------------------------------------------------------------- *)
(** ** An invariant of the dictionaries *)
(* --------------------------------------------------------------------- *)

Section KeysFacts.
Context {V : Type}.
Implicit Types (d : Dict.t V) (k : Z) (v : V).






Lemma below_fresh d c c' : below c d -> c <= c' -> ~ In c' (Dict.keys d).
Proof.
  unfold below. rewrite Forall_forall. intros H Hle Hin.
  specialize (H c' Hin). lia.
Qed.

Lemma get_not_in_keys d k : ~ In k (Dict.keys d) -> Dict.get k d = None.
Proof.
  unfold Dict.keys. induction d as [|[k0 v0] d IH]; intros H; [reflexivity|].
  cbn [Dict.get map fst In] in *. destruct (k =? k0) eqn:E.
  - apply Z.eqb_eq in E. subst. exfalso. apply H. left. reflexivity.
  - apply IH. intros Hin. apply H. right. exact Hin.
Qed.

Lemma len_set_fresh d k v :
  Dict.get k d = None -> Dict.set k v d = d ++ [(k, v)].
Proof.
  induction d as [|[k0 v0] d IH]; intros H; [reflexivity|].
  cbn [Dict.get Dict.set app] in *. destruct (k =? k0); [discriminate|].
  rewrite IH by exact H. reflexivity.
Qed.

End KeysFacts.



Lemma for_each_preserves {X} (P : IbApp -> Prop) (body : X -> M unit) :
  (forall x s, P s -> P (state_of (body x s))) ->
  forall xs s, P s -> P (state_of (for_each xs body s)).
Proof.
  intros Hbody. induction xs as [|x xs IH]; intros s Hs; [exact Hs|].
  cbn [for_each]. unfold bind, state_of.
  specialize (Hbody x s Hs). unfold state_of in Hbody.
  destruct (body x s) as [[[[]|e] s1] ev1]; cbn [fst snd] in *.
  - specialize (IH s1 Hbody). unfold state_of in IH.
    destruct (for_each xs body s1) as [[r2 s2] ev2]. exact IH.
  - exact Hbody.
Qed.







Lemma nextValidId_run (items : option (list Security)) (orderId : Z)
  (self : IbApp) :
  nextValidId items orderId self =
  match items with
  | Some secs =>
      (Ok tt,
       with_requestedContracts
         (registered (numbered orderId secs) (requestedContracts self))
         (with_nextValidReqId
            (Some (orderId + Z.of_nat (List.length (numbered orderId secs))))
            (with_nextValidOrderId (Some orderId) self)),
       [Answer "nextValidId";
        Log INFO (SettingNextValidOrderId orderId);
        Log INFO (StartForReadData (subRealMD self) (subHistMD self))]
       ++ map (fun kv => ReqContractDetails (fst kv) (snd kv))
              (numbered orderId secs))
  | None =>
      (Raise TypeError,
       with_nextValidReqId (Some orderId)
         (with_nextValidOrderId (Some orderId) self),
       [Answer "nextValidId";
        Log INFO (SettingNextValidOrderId orderId);
        Log INFO (StartForReadData (subRealMD self) (subHistMD self))])
  end.
Proof.
  destruct items as [secs|].
  - unfold nextValidId, bind, emit, log, modify. cbn -[start].
    rewrite (@start_run secs _ orderId) by reflexivity.
    destruct self; reflexivity.
  - destruct self; reflexivity.
Qed.





(** X14. In a state that satisfies the invariant, the ids under which a
    matching [contractDetails] reply sends its market-data and historical
    requests are new: they differ from each other and from every key of
    every dictionary, so the entries the handler registers are appended
    and overwrite nothing. *)
Theorem contractDetails_ids_are_new
  (reqId : Z) (details : ContractDetails) (self : IbApp)
  (contract : Contract) :
  well_keyed self ->
  Dict.get reqId (requestedContracts self) = Some contract ->
  ((symbol contract =? symbol (summary details))%string
   || (symbol contract =? marketName details)%string)%bool = true ->
  let r := contractDetails reqId details self in
  let ids := mkt_request_ids (events_of r) ++ hist_request_ids (events_of r) in
  result_of r = Ok tt /\
  NoDup ids /\
  Forall (fun k => ~ In k (used_ids self)) ids /\
  List.length ids = ((if subRealMD self then 1 else 0)
                     + (if subHistMD self then 1 else 0))%nat /\
  Dict.len (marketDataLookup (state_of r)) =
    (Dict.len (marketDataLookup self) + (if subRealMD self then 1 else 0))%nat /\
  Dict.len (historicalLookup (state_of r)) =
    (Dict.len (historicalLookup self) + (if subHistMD self then 1 else 0))%nat.
Proof.
  intros [c [Hc [B1 [B2 [B3 [B4 [B5 [I1 I2]]]]]]]] Hget Hmatch.
  assert (Hfresh : forall c', c <= c' -> ~ In c' (used_ids self)).
  { intros c' Hle Hin. unfold used_ids in Hin.
    repeat (apply in_app_or in Hin; destruct Hin as [Hin|Hin]);
      match goal with
      | H : In _ (Dict.keys ?d) |- _ =>
          apply (fun B => @below_fresh _ d c c' B Hle H)
      end; assumption. }
  assert (Hm : Dict.get c (marketDataLookup self) = None)
    by (apply get_not_in_keys; apply (below_fresh B4); lia).
  assert (Hh : forall c', c <= c' -> Dict.get c' (historicalLookup self) = None)
    by (intros c' Hle; apply get_not_in_keys; apply (below_fresh B5 Hle)).
  destruct (contractDetails_matched reqId details self Hget Hmatch Hc)
    as [Hr [_ [_ [Hmk Hhi]]]].
  cbn zeta. rewrite Hmk, Hhi. split; [exact Hr|].
  clear Hmk Hhi Hr.
  unfold contractDetails, bind, emit, log, this. cbn.
  rewrite Hget, Hmatch.
  destruct self as [real hist stamp oid rid rc rmd rhd mdl hl].
  cbn -[Dict.set used_ids] in *. subst rid.
  destruct real, hist; cbn -[Dict.set used_ids];
    unfold state_of; cbn -[Dict.set used_ids];
    rewrite ?len_set_fresh by (try exact Hm; apply Hh; lia);
    unfold Dict.len; rewrite ?length_app; cbn [List.length];
    repeat split; try lia;
    repeat constructor; try (apply Hfresh; lia);
    cbn [In]; try lia; intuition lia.
Qed.

Lemma contractDetails_ids_are_new_witness :
  let self := state_of (nextValidId (Some [ABC]) 100 (IbApp_init true true 0)) in
  let r := contractDetails 100 ABC_details self in
  let ids := mkt_request_ids (events_of r) ++ hist_request_ids (events_of r) in
  result_of r = Ok tt /\
  NoDup ids /\
  Forall (fun k => ~ In k (used_ids self)) ids /\
  List.length ids = 2%nat /\
  Dict.len (marketDataLookup (state_of r)) = 1%nat /\
  Dict.len (historicalLookup (state_of r)) = 1%nat.
Proof.
  intros self.
  apply (@contractDetails_ids_are_new 100 ABC_details self (start_contract ABC)).
  - exists 101. vm_compute.
    repeat split; repeat constructor; intros x Hx; exact Hx.
  - reflexivity.
  - reflexivity.
Defined.

(* --------------------------------------------------------------------- *)
(** ** verify after replies *)
(* --------------------------------------------------------------------- *)

Lemma contract_requests_app (a b : list event) :
  contract_requests (a ++ b) = contract_requests a ++ contract_requests b.
Proof.
  induction a as [|e a IH]; [reflexivity|].
  destruct e; cbn [app contract_requests]; rewrite IH; reflexivity.
Qed.

Lemma contract_requests_replay (req : Z -> Contract -> event)
  (msg : string -> message) (d : Dict.t Contract) :
  contract_requests (replay req msg d) =
  flat_map (fun kv => contract_requests [req (fst kv) (snd kv)]) d.
Proof.
  unfold replay, Dict.items. induction d as [|kv d IH]; [reflexivity|].
  cbn [flat_map]. rewrite contract_requests_app, IH.
  destruct (req (fst kv) (snd kv)); reflexivity.
Qed.

Lemma verify_trace_contract_requests (self : IbApp) :
  contract_requests (verify_trace self) = Dict.items (requestedContracts self).
Proof.
  unfold verify_trace. rewrite !contract_requests_app.
  rewrite !contract_requests_replay.
  assert (Hnone : forall (req : Z -> Contract -> event) (d : Dict.t Contract),
             (forall k c, contract_requests [req k c] = []) ->
             flat_map (fun kv => contract_requests [req (fst kv) (snd kv)]) d
             = []).
  { intros req d Hreq. induction d as [|kv d IH]; [reflexivity|].
    cbn [flat_map]. rewrite Hreq. exact IH. }
  assert (Hh : contract_requests
                 (if subHistMD self
                  then replay ReqHistoricalData ReRequestingHistoricalData
                              (requestedHistoricalData self)
                  else []) = []).
  { destruct (subHistMD self); [|reflexivity].
    rewrite contract_requests_replay. apply Hnone. reflexivity. }
  assert (Hm : contract_requests
                 (if subRealMD self
                  then replay ReqMktData ReRequestingMarketData
                              (requestedMarketData self)
                  else []) = []).
  { destruct (subRealMD self); [|reflexivity].
    rewrite contract_requests_replay. apply Hnone. reflexivity. }
  rewrite Hh, Hm, !app_nil_r. cbn [contract_requests app].
  unfold Dict.items. induction (requestedContracts self) as [|[k v] d IH];
    [reflexivity|].
  cbn [flat_map contract_requests fst snd app]. rewrite IH. reflexivity.
Qed.

Lemma count_request_replay (req : Z -> Contract -> event)
  (msg : string -> message) (d : Dict.t Contract) :
  (forall k c, is_request (req k c) = true) ->
  count is_request (replay req msg d) = Dict.len d.
Proof.
  intros Hreq. unfold count, replay, Dict.items, Dict.len.
  induction d as [|kv d IH]; [reflexivity|].
  cbn [flat_map app filter]. rewrite Hreq. cbn [is_request List.length].
  rewrite IH. reflexivity.
Qed.

(** C10. Two runs of [verify] in a row, with no reply handled in between,
    both return, leave the receiver as it was and emit the same events.
    Each run sends the time request and one re-request per pending entry:
    for every pending contract, and for every pending historical and
    market-data request of an enabled kind, under the key of the entry.
    The second run is driven off the same entries, which the first has
    not touched, so the two runs together send every re-request twice:
    nothing is left out the second time. *)
Theorem verify_twice_repeats_requests (self : IbApp) :
  let r1 := verify self in
  let r2 := verify (state_of r1) in
  let both := (verify ;; verify) self in
  let mkt := if subRealMD self
             then Dict.keys (requestedMarketData self) else [] in
  let hist := if subHistMD self
              then Dict.keys (requestedHistoricalData self) else [] in
  result_of r1 = Ok tt /\ result_of r2 = Ok tt /\
  state_of r2 = self /\
  events_of r2 = events_of r1 /\
  filter is_request (events_of r2) = filter is_request (events_of r1) /\
  both = (Ok tt, self, events_of r1 ++ events_of r1) /\
  contract_requests (events_of r1) = Dict.items (requestedContracts self) /\
  contract_requests (events_of r2) = Dict.items (requestedContracts self) /\
  mkt_request_ids (events_of r1) = mkt /\
  mkt_request_ids (events_of r2) = mkt /\
  hist_request_ids (events_of r1) = hist /\
  hist_request_ids (events_of r2) = hist /\
  contract_requests (events_of both) =
    Dict.items (requestedContracts self)
    ++ Dict.items (requestedContracts self) /\
  mkt_request_ids (events_of both) = mkt ++ mkt /\
  hist_request_ids (events_of both) = hist ++ hist /\
  count is_request (events_of r1) =
    (1 + Dict.len (requestedContracts self)
     + List.length hist + List.length mkt)%nat /\
  count is_request (events_of both) =
    (2 * count is_request (events_of r1))%nat.
Proof.
  cbn zeta. unfold bind. rewrite !verify_run.
  unfold result_of, state_of, events_of. cbn [fst snd].
  rewrite ?verify_run. cbn [fst snd].
  rewrite !contract_requests_app, !mkt_request_ids_app, !hist_request_ids_app.
  rewrite !verify_trace_contract_requests.
  rewrite !verify_trace_mkt_ids, !verify_trace_hist_ids.
  assert (Hcount : count is_request (verify_trace self) =
            (1 + Dict.len (requestedContracts self)
             + List.length (if subHistMD self
                            then Dict.keys (requestedHistoricalData self)
                            else [])
             + List.length (if subRealMD self
                            then Dict.keys (requestedMarketData self)
                            else []))%nat).
  { unfold verify_trace. rewrite !count_app.
    rewrite count_request_replay by reflexivity.
    destruct (subHistMD self), (subRealMD self);
      rewrite ?count_request_replay by reflexivity;
      unfold Dict.keys, Dict.len; rewrite ?length_map;
      cbn [count filter is_request List.length]; lia. }
  rewrite count_app, Hcount.
  repeat split; lia.
Qed.

Lemma verify_twice_repeats_requests_witness :
  let both := (verify ;; verify) session_ABC in
  result_of both = Ok tt /\
  state_of both = session_ABC /\
  contract_requests (events_of both) =
    [(100, start_contract ABC); (100, start_contract ABC)] /\
  hist_request_ids (events_of both) = [102; 102] /\
  mkt_request_ids (events_of both) = [101; 101] /\
  count is_request (events_of (verify session_ABC)) = 4%nat /\
  count is_request (events_of both) = 8%nat.
Proof.
  destruct (verify_twice_repeats_requests session_ABC)
    as [_ [_ [_ [_ [_ [Hb [_ [_ [_ [_ [_ [_ [Hc [Hm [Hh [H1 H2]]]]]]]]]]]]]]]].
  cbn zeta in *.
  split; [rewrite Hb; reflexivity|]. split; [rewrite Hb; reflexivity|].
  split; [exact Hc|]. split; [exact Hh|]. split; [exact Hm|].
  split; [exact H1|]. rewrite H2, H1. reflexivity.
Defined.

(** X15. Whatever the flags, [verify] first asks for the server time and
    then re-requests the details of every pending contract under its own
    id; with the re-requests of the enabled kinds it sends one request
    for the time plus one per pending entry, and on an instance with
    nothing pending the time request alone. *)
Theorem verify_requests_in_all (self : IbApp) :
  let r := verify self in
  (exists rest,
     events_of r = Log INFO RequestingServerTime :: ReqCurrentTime :: rest) /\
  contract_requests (events_of r) = Dict.items (requestedContracts self) /\
  count is_request (events_of r) =
    (1 + Dict.len (requestedContracts self)
     + (if subHistMD self then Dict.len (requestedHistoricalData self) else 0)
     + (if subRealMD self then Dict.len (requestedMarketData self) else 0))%nat /\
  (requestedContracts self = [] ->
   requestedHistoricalData self = [] ->
   requestedMarketData self = [] ->
   events_of r = [Log INFO RequestingServerTime; ReqCurrentTime]).
Proof.
  cbn zeta. rewrite verify_run. unfold events_of. cbn [snd].
  split; [eexists; reflexivity|].
  split; [apply verify_trace_contract_requests|].
  split.
  - unfold verify_trace. rewrite !count_app.
    rewrite count_request_replay by reflexivity.
    destruct (subHistMD self), (subRealMD self);
      rewrite ?count_request_replay by reflexivity;
      cbn [count filter is_request List.length]; lia.
  - intros H1 H2 H3. unfold verify_trace. rewrite H1, H2, H3.
    destruct (subHistMD self), (subRealMD self); reflexivity.
Qed.

Lemma verify_requests_in_all_witness :
  let r := verify session_ABC in
  contract_requests (events_of r) = [(100, start_contract ABC)] /\
  count is_request (events_of r) = 4%nat /\
  events_of (verify (IbApp_init true false 0)) =
    [Log INFO RequestingServerTime; ReqCurrentTime].
Proof.
  destruct (verify_requests_in_all session_ABC) as [_ [Hc [Hn _]]].
  destruct (verify_requests_in_all (IbApp_init true false 0)) as [_ [_ [_ He]]].
  split; [exact Hc|]. split; [exact Hn|].
  apply He; reflexivity.
Defined.

(** X16. What a terminal reply has satisfied is not re-requested: after
    [contractDetailsEnd] of a request id, after a [historicalData] bar or
    after a [tickPrice] for an id their lookup table knows, [verify] sends
    the re-requests of the kind it sent before, except the one under
    this id. *)
Theorem verify_skips_satisfied_requests
  (update_item : string -> BarData -> bool)
  (reqId : Z) (bar : BarData) (tickType : Z) (price : float) (self : IbApp) :
  let others := filter (fun k => negb (reqId =? k)) in
  map fst (contract_requests
             (events_of (verify (state_of (contractDetailsEnd reqId self)))))
  = others (map fst (contract_requests (events_of (verify self))))
  /\
  (Dict.mem reqId (historicalLookup self) = true ->
   hist_request_ids
     (events_of
        (verify (state_of (historicalData update_item reqId bar self))))
   = others (hist_request_ids (events_of (verify self))))
  /\
  (Dict.mem reqId (marketDataLookup self) = true ->
   mkt_request_ids
     (events_of (verify (state_of (tickPrice reqId tickType price self))))
   = others (mkt_request_ids (events_of (verify self)))).
Proof.
  cbn zeta. rewrite !verify_run. unfold events_of. cbn [snd].
  assert (Hfilter : forall (V : Type) (d : Dict.t V),
             Dict.mem reqId d = false ->
             filter (fun k => negb (reqId =? k)) (Dict.keys d) = Dict.keys d).
  { intros V d Hm. rewrite <- keys_del. unfold Dict.del.
    f_equal. apply mem_false_get in Hm.
    induction d as [|[k0 v0] d IH]; [reflexivity|].
    cbn [Dict.get filter fst] in *. destruct (reqId =? k0); [discriminate|].
    cbn [negb]. rewrite IH by exact Hm. reflexivity. }
  split; [|split].
  - rewrite !verify_trace_contract_requests.
    destruct (contractDetailsEnd_state reqId self) as [_ ->].
    change (map fst (Dict.items ?d)) with (Dict.keys d).
    destruct (Dict.mem reqId (requestedContracts self)) eqn:E.
    + destruct self; cbn -[Dict.del Dict.keys]. apply keys_del.
    + symmetry. apply Hfilter. exact E.
  - unfold Dict.mem at 1.
    destruct (Dict.get reqId (historicalLookup self)) as [sym|] eqn:G;
      [intros _|discriminate].
    rewrite (historicalData_run update_item reqId bar self G).
    unfold state_of. cbn [fst snd]. rewrite !verify_trace_hist_ids.
    destruct (Dict.mem reqId (requestedHistoricalData self)) eqn:E.
    + destruct self as [real hist stamp oid rid rc rmd rhd mdl hl].
      cbn -[Dict.del Dict.keys]. destruct hist; [apply keys_del|reflexivity].
    + destruct (subHistMD self); [|reflexivity].
      symmetry. apply Hfilter. exact E.
  - unfold Dict.mem at 1.
    destruct (Dict.get reqId (marketDataLookup self)) as [sym|] eqn:G;
      [intros _|discriminate].
    rewrite (tickPrice_state reqId tickType price self G).
    unfold state_of. cbn [fst snd]. rewrite !verify_trace_mkt_ids.
    destruct (Dict.mem reqId (requestedMarketData self)) eqn:E.
    + destruct self as [real hist stamp oid rid rc rmd rhd mdl hl].
      cbn -[Dict.del Dict.keys]. destruct real; [apply keys_del|reflexivity].
    + destruct (subRealMD self); [|reflexivity].
      symmetry. apply Hfilter. exact E.
Qed.

Lemma verify_skips_satisfied_requests_witness :
  map fst (contract_requests
             (events_of (verify (state_of (contractDetailsEnd 100 session_ABC)))))
  = []
  /\
  hist_request_ids
    (events_of
       (verify (state_of (historicalData (fun _ _ => true) 102 a_bar
                            session_ABC))))
  = []
  /\
  mkt_request_ids
    (events_of (verify (state_of (tickPrice 101 4 (Float 0) session_ABC))))
  = [].
Proof.
  destruct (@verify_skips_satisfied_requests (fun _ _ => true) 100 a_bar 4
              (Float 0) session_ABC) as [Hc _].
  destruct (@verify_skips_satisfied_requests (fun _ _ => true) 102 a_bar 4
              (Float 0) session_ABC) as [_ [Hh _]].
  destruct (@verify_skips_satisfied_requests (fun _ _ => true) 101 a_bar 4
              (Float 0) session_ABC) as [_ [_ Hm]].
  split; [exact Hc|]. split; [apply Hh; reflexivity|apply Hm; reflexivity].
Defined.

(* --------------------------------------------------------------------- *)
(** ** The message loop, pass by pass *)
(* --------------------------------------------------------------------- *)

Section LoopSteps.
Variable MAX_MSG_LEN : Z.
Variable read_fields : list byte -> list (list byte).
Variable interpret : list (list byte) -> M unit.
Variable func : M unit.

Lemma preceded_eta {A} (r : outcome A * IbApp * list event) :
  preceded [] r = r.
Proof. destruct r as [[o s] ev]. reflexivity. Qed.

(** One pass that ends with [Next] is followed by the rest of the run. *)
Lemma message_loop_next (t : tick) (script : list tick)
  (self s1 : IbApp) (ev : list event) :
  loop_condition t = true ->
  iteration MAX_MSG_LEN read_fields interpret func t self = (Ok Next, s1, ev) ->
  message_loop MAX_MSG_LEN read_fields interpret func (t :: script) self =
  preceded ev (message_loop MAX_MSG_LEN read_fields interpret func script s1).
Proof.
  intros Hcond Hit. cbn [message_loop].
  unfold loop_condition in Hcond. rewrite Hcond.
  unfold bind. rewrite Hit. unfold preceded, result_of, state_of, events_of.
  destruct (message_loop MAX_MSG_LEN read_fields interpret func script s1)
    as [[r2 s2] ev2]. reflexivity.
Qed.

Lemma message_loop_raise (t : tick) (script : list tick)
  (self s1 : IbApp) (ev : list event) (e : exn) :
  loop_condition t = true ->
  iteration MAX_MSG_LEN read_fields interpret func t self = (Raise e, s1, ev) ->
  message_loop MAX_MSG_LEN read_fields interpret func (t :: script) self =
  (Raise e, s1, ev).
Proof.
  intros Hcond Hit. cbn [message_loop].
  unfold loop_condition in Hcond. rewrite Hcond.
  unfold bind. rewrite Hit. reflexivity.
Qed.

Lemma iteration_frame (t : tick) (text : list byte) (self : IbApp) :
  obs_get t = Frame text ->
  Z.of_nat (List.length text) <= MAX_MSG_LEN ->
  iteration MAX_MSG_LEN read_fields interpret func t self =
  match interpret (read_fields text) self with
  | (Ok _, s1, ev) =>
      (Ok Next, s1,
       Logging DEBUG (FieldsMsg (read_fields text)) :: ev
       ++ [Logging DEBUG ConnQueueMsg])
  | (Raise e, s1, ev) =>
      match e with
      | KeyboardInterrupt | SystemExit =>
          if obs_hard t
          then (Raise SystemExit, s1,
                Logging DEBUG (FieldsMsg (read_fields text)) :: ev
                ++ [Logging INFO DetectedInterrupt; KeyboardInterruptCb])
          else (Ok Next, s1,
                Logging DEBUG (FieldsMsg (read_fields text)) :: ev
                ++ [Logging INFO DetectedInterrupt; KeyboardInterruptCb;
                    Logging DEBUG ConnQueueMsg])
      | BadMessage =>
          (Ok Next, s1,
           Logging DEBUG (FieldsMsg (read_fields text)) :: ev
           ++ [Logging INFO BadMessageMsg; ConnDisconnect;
               Logging DEBUG ConnQueueMsg])
      | _ =>
          (Raise e, s1, Logging DEBUG (FieldsMsg (read_fields text)) :: ev)
      end
  end.
Proof.
  intros Hget Hlen.
  assert (Hltb : (MAX_MSG_LEN <? Z.of_nat (List.length text)) = false)
    by (apply Z.ltb_ge; exact Hlen).
  unfold iteration, guarded, try_except, poll. rewrite Hget, Hltb.
  unfold bind, logging, emit, ret, raise.
  destruct (interpret (read_fields text) self) as [[[[]|e] s1] ev];
    cbn [app].
  - rewrite app_nil_r. reflexivity.
  - destruct e; try reflexivity; destruct (obs_hard t); cbn [app];
      rewrite <- ?app_assoc; reflexivity.
Qed.

End LoopSteps.

(** X17. On an idle pass (the queue gave nothing within the timeout) the
    probe is called only if more than 30 seconds have passed since
    [lastStamp], exactly 30 seconds being too few; when the probe
    returns, [lastStamp] is set to the new clock reading, and when it
    raises an exception the loop has no clause for, the exception leaves
    the pass with [lastStamp] as it was. *)
Theorem idle_pass_probes_after_thirty_seconds
  (MAX_MSG_LEN : Z) (read_fields : list byte -> list (list byte))
  (interpret : list (list byte) -> M unit) (func : M unit)
  (t : tick) (self s1 : IbApp) (ev : list event) (e : exn) :
  obs_get t = Empty ->
  let pass := iteration MAX_MSG_LEN read_fields interpret func t self in
  let tail := [Logging DEBUG QueueGetEmpty; Logging DEBUG ConnQueueMsg] in
  (obs_now t - lastStamp self <= 30000000 ->
   pass = (Ok Next, self, tail))
  /\
  (30000000 < obs_now t - lastStamp self ->
   func self = (Ok tt, s1, ev) ->
   pass = (Ok Next, with_lastStamp (obs_stamp t) s1, ev ++ tail))
  /\
  (30000000 < obs_now t - lastStamp self ->
   func self = (Raise e, s1, ev) ->
   caught_by_loop e = false ->
   pass = (Raise e, s1, ev)).
Proof.
  intros Hget. cbn zeta.
  unfold iteration, guarded, try_except, poll. rewrite Hget.
  unfold bind, this, when, logging, emit, ret, modify.
  split; [|split].
  - intros Hle. apply Z.ltb_ge in Hle. rewrite Hle. reflexivity.
  - intros Hlt Hf. apply Z.ltb_lt in Hlt. rewrite Hlt, Hf.
    cbn [app]. rewrite ?app_nil_r, <- ?app_assoc. reflexivity.
  - intros Hlt Hf Hc. apply Z.ltb_lt in Hlt. rewrite Hlt, Hf.
    destruct e; try discriminate; cbn [app]; rewrite ?app_nil_r;
      reflexivity.
Qed.

Lemma idle_pass_probes_after_thirty_seconds_witness :
  let late := connected_tick Empty 30000001 false in
  let just := connected_tick Empty 30000000 false in
  let tail := [Logging DEBUG QueueGetEmpty; Logging DEBUG ConnQueueMsg] in
  iteration 16 sample_read_fields sample_interpret verify just session_ABC
    = (Ok Next, session_ABC, tail)
  /\
  iteration 16 sample_read_fields sample_interpret verify late session_ABC
    = (Ok Next, with_lastStamp 30000001 session_ABC,
       verify_trace session_ABC ++ tail)
  /\
  iteration 16 sample_read_fields sample_interpret (raise TypeError) late
    session_ABC = (Raise TypeError, session_ABC, []).
Proof.
  intros late just tail.
  destruct (@idle_pass_probes_after_thirty_seconds 16 sample_read_fields
              sample_interpret verify just session_ABC session_ABC
              (verify_trace session_ABC) TypeError eq_refl) as [H1 _].
  destruct (@idle_pass_probes_after_thirty_seconds 16 sample_read_fields
              sample_interpret verify late session_ABC session_ABC
              (verify_trace session_ABC) TypeError eq_refl) as [_ [H2 _]].
  destruct (@idle_pass_probes_after_thirty_seconds 16 sample_read_fields
              sample_interpret (raise TypeError) late session_ABC session_ABC
              [] TypeError eq_refl) as [_ [_ H3]].
  split; [apply H1; vm_compute; discriminate|].
  split; [apply H2; [reflexivity|apply verify_run]|].
  apply H3; reflexivity.
Defined.

(** X18. An undecodable frame and an operator interrupt do not end the
    loop.  After a [BadMessage] from the decoder the connection is
    closed and the loop goes on with its next pass; after a
    [KeyboardInterrupt] at the queue it goes on as well, unless
    [keyboardInterruptHard] raises [SystemExit], which then leaves
    [runnable] after the cleanup. *)
Theorem loop_survives_bad_message_and_interrupt
  (MAX_MSG_LEN : Z) (read_fields : list byte -> list (list byte))
  (interpret : list (list byte) -> M unit) (func : M unit)
  (t : tick) (script : list tick) (text : list byte)
  (self s1 : IbApp) (ev : list event) :
  loop_condition t = true ->
  let rest := message_loop MAX_MSG_LEN read_fields interpret func script in
  (obs_get t = Frame text ->
   Z.of_nat (List.length text) <= MAX_MSG_LEN ->
   interpret (read_fields text) self = (Raise BadMessage, s1, ev) ->
   message_loop MAX_MSG_LEN read_fields interpret func (t :: script) self =
   preceded (Logging DEBUG (FieldsMsg (read_fields text)) :: ev
             ++ [Logging INFO BadMessageMsg; ConnDisconnect;
                 Logging DEBUG ConnQueueMsg])
            (rest s1))
  /\
  (obs_get t = Interrupted KeyboardInterrupt -> obs_hard t = false ->
   message_loop MAX_MSG_LEN read_fields interpret func (t :: script) self =
   preceded [Logging INFO DetectedInterrupt; KeyboardInterruptCb;
             Logging DEBUG ConnQueueMsg]
            (rest self))
  /\
  (obs_get t = Interrupted KeyboardInterrupt -> obs_hard t = true ->
   runnable MAX_MSG_LEN read_fields interpret func (t :: script) self =
   (Raise SystemExit, self,
    [Logging INFO DetectedInterrupt; KeyboardInterruptCb; Disconnect])).
Proof.
  intros Hcond. cbn zeta. split; [|split].
  - intros Hget Hlen Hint.
    apply message_loop_next; [exact Hcond|].
    rewrite (@iteration_frame MAX_MSG_LEN read_fields interpret func t text
               self Hget Hlen), Hint. reflexivity.
  - intros Hget Hhard.
    apply message_loop_next; [exact Hcond|].
    unfold iteration, guarded, try_except, poll. rewrite Hget, Hhard.
    reflexivity.
  - intros Hget Hhard. unfold runnable.
    rewrite (@message_loop_raise MAX_MSG_LEN read_fields interpret func t
               script self self
               [Logging INFO DetectedInterrupt; KeyboardInterruptCb]
               SystemExit Hcond); [reflexivity|].
    unfold iteration, guarded, try_except, poll. rewrite Hget, Hhard.
    reflexivity.
Qed.

Lemma loop_survives_bad_message_and_interrupt_witness :
  let rest := message_loop 16 sample_read_fields sample_interpret verify
                [closed_tick] in
  message_loop 16 sample_read_fields sample_interpret verify
    [connected_tick (Frame [xff]) 0 false; closed_tick] session_ABC =
  preceded [Logging DEBUG (FieldsMsg [[xff]]);
            Logging INFO BadMessageMsg; ConnDisconnect;
            Logging DEBUG ConnQueueMsg]
           (rest session_ABC)
  /\
  message_loop 16 sample_read_fields sample_interpret verify
    [connected_tick (Interrupted KeyboardInterrupt) 0 false; closed_tick]
    session_ABC =
  preceded [Logging INFO DetectedInterrupt; KeyboardInterruptCb;
            Logging DEBUG ConnQueueMsg]
           (rest session_ABC)
  /\
  runnable 16 sample_read_fields sample_interpret verify
    [connected_tick (Interrupted KeyboardInterrupt) 0 true; closed_tick]
    session_ABC =
  (Raise SystemExit, session_ABC,
   [Logging INFO DetectedInterrupt; KeyboardInterruptCb; Disconnect]).
Proof.
  intros rest.
  destruct (@loop_survives_bad_message_and_interrupt 16 sample_read_fields
              sample_interpret verify
              (connected_tick (Frame [xff]) 0 false) [closed_tick] [xff]
              session_ABC session_ABC [] eq_refl) as [H1 _].
  destruct (@loop_survives_bad_message_and_interrupt 16 sample_read_fields
              sample_interpret verify
              (connected_tick (Interrupted KeyboardInterrupt) 0 false)
              [closed_tick] [] session_ABC session_ABC [] eq_refl)
    as [_ [H2 _]].
  destruct (@loop_survives_bad_message_and_interrupt 16 sample_read_fields
              sample_interpret verify
              (connected_tick (Interrupted KeyboardInterrupt) 0 true)
              [closed_tick] [] session_ABC session_ABC [] eq_refl)
    as [_ [_ H3]].
  split; [apply H1; [reflexivity|vm_compute; discriminate|reflexivity]|].
  split; [apply H2; reflexivity|apply H3; reflexivity].
Defined.

(** X19. An exception of a handler for which the loop has no [except]
    clause, such as the [KeyError] of a tick for an unknown id, ends the
    run: [runnable] disconnects in its cleanup and raises it to the
    caller, with the receiver as the handler left it; what is still
    queued is not read. *)
Theorem loop_propagates_other_exceptions
  (MAX_MSG_LEN : Z) (read_fields : list byte -> list (list byte))
  (interpret : list (list byte) -> M unit) (func : M unit)
  (t : tick) (script : list tick) (text : list byte)
  (self s1 : IbApp) (ev : list event) (e : exn) :
  loop_condition t = true ->
  obs_get t = Frame text ->
  Z.of_nat (List.length text) <= MAX_MSG_LEN ->
  interpret (read_fields text) self = (Raise e, s1, ev) ->
  caught_by_loop e = false ->
  runnable MAX_MSG_LEN read_fields interpret func (t :: script) self =
  (Raise e, s1,
   Logging DEBUG (FieldsMsg (read_fields text)) :: ev ++ [Disconnect]).
Proof.
  intros Hcond Hget Hlen Hint Hc. unfold runnable.
  rewrite (@message_loop_raise MAX_MSG_LEN read_fields interpret func t
             script self s1
             (Logging DEBUG (FieldsMsg (read_fields text)) :: ev) e Hcond);
    [reflexivity|].
  rewrite (@iteration_frame MAX_MSG_LEN read_fields interpret func t text
             self Hget Hlen), Hint.
  destruct e; try discriminate; reflexivity.
Qed.

Lemma loop_propagates_other_exceptions_witness :
  runnable 16 sample_read_fields sample_interpret verify
    [connected_tick (Frame [x03; x07]) 0 false;
     connected_tick (Frame [x01; x64]) 0 false] session_ABC =
  (Raise (KeyError 7), session_ABC,
   [Logging DEBUG (FieldsMsg [[x03]; [x07]]); Disconnect]).
Proof.
  apply (@loop_propagates_other_exceptions 16 sample_read_fields
           sample_interpret verify
           (connected_tick (Frame [x03; x07]) 0 false)
           [connected_tick (Frame [x01; x64]) 0 false] [x03; x07]
           session_ABC session_ABC [] (KeyError 7)).
  - reflexivity.
  - reflexivity.
  - vm_compute. discriminate.
  - reflexivity.
  - reflexivity.
Defined.

(** X20. A frame of at most [MAX_MSG_LEN] bytes, a frame of exactly that
    length included, is split into fields and interpreted, and the loop
    goes on; a longer frame is never interpreted: the error is reported,
    the client disconnects, and the run ends with the receiver unchanged
    and the rest of the queue unread. *)
Theorem loop_accepts_frames_up_to_max_length
  (MAX_MSG_LEN : Z) (read_fields : list byte -> list (list byte))
  (interpret : list (list byte) -> M unit) (func : M unit)
  (t : tick) (script : list tick) (text : list byte)
  (self s1 : IbApp) (ev : list event) :
  loop_condition t = true ->
  obs_get t = Frame text ->
  (Z.of_nat (List.length text) <= MAX_MSG_LEN ->
   interpret (read_fields text) self = (Ok tt, s1, ev) ->
   message_loop MAX_MSG_LEN read_fields interpret func (t :: script) self =
   preceded (Logging DEBUG (FieldsMsg (read_fields text)) :: ev
             ++ [Logging DEBUG ConnQueueMsg])
            (message_loop MAX_MSG_LEN read_fields interpret func script s1))
  /\
  (MAX_MSG_LEN < Z.of_nat (List.length text) ->
   runnable MAX_MSG_LEN read_fields interpret func (t :: script) self =
   (Ok Exited, self,
    [WrapperError (List.length text); Disconnect; Disconnect])).
Proof.
  intros Hcond Hget. split.
  - intros Hlen Hint. apply message_loop_next; [exact Hcond|].
    rewrite (@iteration_frame MAX_MSG_LEN read_fields interpret func t text
               self Hget Hlen), Hint. reflexivity.
  - intros Hlen. apply Z.ltb_lt in Hlen.
    unfold runnable. cbn [message_loop].
    unfold loop_condition in Hcond. rewrite Hcond.
    unfold bind at 1. unfold iteration. unfold bind at 1.
    unfold guarded, try_except, poll. rewrite Hget, Hlen.
    reflexivity.
Qed.

Lemma loop_accepts_frames_up_to_max_length_witness :
  message_loop 2 sample_read_fields sample_interpret verify
    [connected_tick (Frame [x02; x05]) 0 false] session_ABC =
  preceded [Logging DEBUG (FieldsMsg [[x02]; [x05]]);
            Answer "tickSnapshotEnd"; Log INFO (TickSnapshotEndMsg 5);
            Logging DEBUG ConnQueueMsg]
           (message_loop 2 sample_read_fields sample_interpret verify []
              session_ABC)
  /\
  runnable 2 sample_read_fields sample_interpret verify
    [connected_tick (Frame [x02; x05; x00]) 0 false;
     connected_tick (Frame [x02; x05]) 0 false] session_ABC =
  (Ok Exited, session_ABC, [WrapperError 3; Disconnect; Disconnect]).
Proof.
  destruct (@loop_accepts_frames_up_to_max_length 2 sample_read_fields
              sample_interpret verify
              (connected_tick (Frame [x02; x05]) 0 false) [] [x02; x05]
              session_ABC session_ABC
              [Answer "tickSnapshotEnd"; Log INFO (TickSnapshotEndMsg 5)]
              eq_refl eq_refl) as [H1 _].
  destruct (@loop_accepts_frames_up_to_max_length 2 sample_read_fields
              sample_interpret verify
              (connected_tick (Frame [x02; x05; x00]) 0 false)
              [connected_tick (Frame [x02; x05]) 0 false] [x02; x05; x00]
              session_ABC session_ABC [] eq_refl eq_refl) as [_ H2].
  split; [apply H1; [vm_compute; discriminate|reflexivity]|].
  apply H2. reflexivity.
Defined.

(** X21. The loop takes no further pass once [self.done] is set, even
    with frames in the queue, nor once the connection is closed and the
    queue is empty: [runnable] then only disconnects and returns.  With
    the connection closed but the queue not yet empty, it still reads
    and interprets the queued frame. *)
Theorem loop_drains_queue_unless_done
  (MAX_MSG_LEN : Z) (read_fields : list byte -> list (list byte))
  (interpret : list (list byte) -> M unit) (func : M unit)
  (t : tick) (script : list tick) (text : list byte)
  (self s1 : IbApp) (ev : list event) :
  (obs_done t = true ->
   runnable MAX_MSG_LEN read_fields interpret func (t :: script) self =
   (Ok Exited, self, [Disconnect]))
  /\
  (obs_connected t = false -> obs_queued t = false ->
   runnable MAX_MSG_LEN read_fields interpret func (t :: script) self =
   (Ok Exited, self, [Disconnect]))
  /\
  (obs_done t = false -> obs_connected t = false -> obs_queued t = true ->
   obs_get t = Frame text ->
   Z.of_nat (List.length text) <= MAX_MSG_LEN ->
   interpret (read_fields text) self = (Ok tt, s1, ev) ->
   message_loop MAX_MSG_LEN read_fields interpret func (t :: script) self =
   preceded (Logging DEBUG (FieldsMsg (read_fields text)) :: ev
             ++ [Logging DEBUG ConnQueueMsg])
            (message_loop MAX_MSG_LEN read_fields interpret func script s1)).
Proof.
  split; [|split].
  - intros Hdone. unfold runnable. cbn [message_loop]. rewrite Hdone.
    reflexivity.
  - intros Hconn Hq. unfold runnable. cbn [message_loop].
    rewrite Hconn, Hq, andb_false_r. reflexivity.
  - intros Hdone Hconn Hq Hget Hlen Hint.
    apply message_loop_next.
    + unfold loop_condition. rewrite Hdone, Hconn, Hq. reflexivity.
    + rewrite (@iteration_frame MAX_MSG_LEN read_fields interpret func t text
                 self Hget Hlen), Hint. reflexivity.
Qed.

Lemma loop_drains_queue_unless_done_witness :
  let frame := Frame [x01; x64] in
  runnable 16 sample_read_fields sample_interpret verify
    [mkTick true true true frame 0 0 false] session_ABC =
  (Ok Exited, session_ABC, [Disconnect])
  /\
  runnable 16 sample_read_fields sample_interpret verify
    [mkTick false false false frame 0 0 false] session_ABC =
  (Ok Exited, session_ABC, [Disconnect])
  /\
  message_loop 16 sample_read_fields sample_interpret verify
    [mkTick false false true frame 0 0 false] session_ABC =
  preceded [Logging DEBUG (FieldsMsg [[x01]; [x64]]);
            Answer "contractDetailsEnd"; Log INFO (ContractDetailsEndMsg 100);
            Logging DEBUG ConnQueueMsg]
           (message_loop 16 sample_read_fields sample_interpret verify []
              (with_requestedContracts [] session_ABC)).
Proof.
  intros frame.
  destruct (@loop_drains_queue_unless_done 16 sample_read_fields
              sample_interpret verify (mkTick true true true frame 0 0 false)
              [] [x01; x64] session_ABC session_ABC []) as [H1 _].
  destruct (@loop_drains_queue_unless_done 16 sample_read_fields
              sample_interpret verify (mkTick false false false frame 0 0 false)
              [] [x01; x64] session_ABC session_ABC []) as [_ [H2 _]].
  destruct (@loop_drains_queue_unless_done 16 sample_read_fields
              sample_interpret verify (mkTick false false true frame 0 0 false)
              [] [x01; x64] session_ABC
              (with_requestedContracts [] session_ABC)
              [Answer "contractDetailsEnd"; Log INFO (ContractDetailsEndMsg 100)])
    as [_ [_ H3]].
  split; [apply H1; reflexivity|].
  split; [apply H2; reflexivity|].
  apply H3; try reflexivity. vm_compute. discriminate.
Defined.

(* --------------------------------------------------------------------- *)
(** ** CloudLogger *)
(* --------------------------------------------------------------------- *)

Lemma last_cons {A} (l : list A) :
  forall a d, last (a :: l) d = last l a.
Proof.
  induction l as [|b l IH]; intros a d; [reflexivity|].
  change (last (a :: b :: l) d) with (last (b :: l) d).
  rewrite (IH b d), (IH b a). reflexivity.
Qed.

(** X22. As long as every response carries a ['nextSequenceToken'], a
    series of logger calls sends one [put_log_events] per call, each
    with the token of the response before it: the first with the token
    the logger held at the start (none on a new logger), and the logger
    ends up holding the token of the last response.  The file logger
    gets every message, at its level and in order. *)
Theorem CloudLogger_chains_sequence_tokens
  (reqs : list (level * CloudLogger.outside * string))
  (token : option string) :
  Forall (fun req =>
            CloudLogger.nextSequenceToken (snd (fst req)) <> None) reqs ->
  let nexts :=
    map (fun req => CloudLogger.nextSequenceToken (snd (fst req))) reqs in
  let r := CloudLogger.write_all reqs token in
  fst r = CloudLogger.Done (last nexts token) /\
  CloudLogger.tokens_sent (snd r) = firstn (List.length reqs) (token :: nexts) /\
  filter (fun c => match c with CloudLogger.FileLog _ _ => true | _ => false end)
         (snd r) =
    map (fun req => CloudLogger.FileLog (fst (fst req)) (snd req)) reqs.
Proof.
  cbn zeta. revert token.
  induction reqs as [|[[lvl o] msg] reqs IH]; intros token Hall.
  - repeat split.
  - inversion Hall as [|x l Hnext Hrest]; subst. cbn [fst snd] in Hnext.
    cbn [CloudLogger.write_all]. unfold CloudLogger.write.
    unfold CloudLogger.logToStream.
    destruct (CloudLogger.nextSequenceToken o) as [next|] eqn:E;
      [|congruence].
    specialize (IH (Some next) Hrest).
    destruct (CloudLogger.write_all reqs (Some next)) as [r calls].
    cbn [fst snd] in *. destruct IH as [IH1 [IH2 IH3]].
    cbn [map fst snd List.length firstn app CloudLogger.tokens_sent filter].
    rewrite E, last_cons, IH1, IH2, IH3.
    destruct token; repeat split.
Qed.

Lemma CloudLogger_chains_sequence_tokens_witness :
  let reqs :=
    [(INFO, CloudLogger.mkOutside "t1" "t1" (Some "A"%string),
      "created"%string);
     (WARNING, CloudLogger.mkOutside "t2" "t2" (Some "B"%string),
      "unknown"%string);
     (ERROR, CloudLogger.mkOutside "t3" "t3" (Some "C"%string),
      "failed"%string)] in
  let r := CloudLogger.write_all reqs None in
  fst r = CloudLogger.Done (Some "C"%string) /\
  CloudLogger.tokens_sent (snd r) = [None; Some "A"%string; Some "B"%string] /\
  filter (fun c => match c with CloudLogger.FileLog _ _ => true | _ => false end)
         (snd r) =
    [CloudLogger.FileLog INFO "created";
     CloudLogger.FileLog WARNING "unknown";
     CloudLogger.FileLog ERROR "failed"].
Proof.
  intros reqs.
  apply (@CloudLogger_chains_sequence_tokens reqs None).
  repeat constructor; discriminate.
Defined.

(** One logger call writes the message to the file logger and sends
    one line to the stream, made of the time, the level name in
    brackets and the message.  While the logger holds no token, that is
    on its first line, the line is sent with a second time stamp in
    front and without a token.  If the response has no
    ['nextSequenceToken'] the call raises [KeyError] after the line was
    sent. *)
Theorem CloudLogger_line_format
  (lvl : level) (o : CloudLogger.outside) (msg : string)
  (token : option string) :
  let line := (CloudLogger.clock_format o ++ " ["
               ++ CloudLogger.level_name lvl ++ "] " ++ msg)%string in
  let sent :=
    match token with
    | None => CloudLogger.PutLogEvents None
                (CloudLogger.clock_put o ++ line)%string
    | Some t => CloudLogger.PutLogEvents (Some t) line
    end in
  snd (CloudLogger.write lvl o msg token) = [CloudLogger.FileLog lvl msg; sent]
  /\
  fst (CloudLogger.write lvl o msg token) =
    match CloudLogger.nextSequenceToken o with
    | Some next => CloudLogger.Done (Some next)
    | None => CloudLogger.KeyError_nextSequenceToken
    end.
Proof.
  cbn zeta. unfold CloudLogger.write, CloudLogger.logToStream.
  destruct (CloudLogger.nextSequenceToken o), token; split; reflexivity.
Qed.

(* --------------------------------------------------------------------- *)
(** ** DecimalEncoder *)
(* --------------------------------------------------------------------- *)

Lemma scale_pos (d : DecimalEncoder.Decimal) :
  DecimalEncoder.exponent d < 0 -> 0 < DecimalEncoder.scale d.
Proof.
  intros H. unfold DecimalEncoder.scale. apply Z.pow_pos_nonneg; lia.
Qed.

Lemma underflows_false (d : DecimalEncoder.Decimal) (r : Z) :
  0 < r ->
  DecimalEncoder.Etiny <= DecimalEncoder.exponent d \/
  10 ^ (DecimalEncoder.Etiny - DecimalEncoder.exponent d) < 2 * r ->
  DecimalEncoder.underflows d r = false.
Proof.
  intros Hr [He|Hbig]; unfold DecimalEncoder.underflows.
  - apply Z.ltb_ge in He. rewrite He. reflexivity.
  - apply andb_false_iff. right. apply Z.leb_gt.
    rewrite Z.abs_eq by lia. exact Hbig.
Qed.

Lemma underflows_true (d : DecimalEncoder.Decimal) (r : Z) :
  0 < r ->
  DecimalEncoder.exponent d < DecimalEncoder.Etiny ->
  2 * r <= 10 ^ (DecimalEncoder.Etiny - DecimalEncoder.exponent d) ->
  DecimalEncoder.underflows d r = true.
Proof.
  intros Hr He Hsmall. unfold DecimalEncoder.underflows.
  apply andb_true_iff. split; [apply Z.ltb_lt; exact He|].
  apply Z.leb_le. rewrite Z.abs_eq by lia. exact Hsmall.
Qed.

(** X23. For a finite [Decimal] whose integral part fits the precision of
    the default context, [default] gives the exact integer when the value
    is integral, and a float when it is positive with a fractional part
    that the context does not round to zero (always so for an exponent
    of [Etiny = -1000026] or more).  A negative value with a fractional
    part is encoded as an integer too, the value rounded towards zero,
    so its fraction is lost; so is a positive value whose exponent is
    below [Etiny] and whose fractional part is at most half a unit of
    [10 ^ Etiny]. *)
Theorem DecimalEncoder_default_by_sign
  (d : DecimalEncoder.Decimal) :
  Z.abs (DecimalEncoder.to_int d) < 10 ^ DecimalEncoder.prec ->
  let c := DecimalEncoder.coefficient d in
  let e := DecimalEncoder.exponent d in
  let s := DecimalEncoder.scale d in
  let n := DecimalEncoder.to_int d in
  let out := DecimalEncoder.default (DecimalEncoder.ODecimal d) in
  (0 <= e -> out = inl (DecimalEncoder.AsInt (c * 10 ^ e)))
  /\
  (e < 0 -> Z.rem c s = 0 ->
   out = inl (DecimalEncoder.AsInt n) /\ n * s = c)
  /\
  (e < 0 -> 0 < c -> Z.rem c s <> 0 ->
   DecimalEncoder.Etiny <= e \/
   10 ^ (DecimalEncoder.Etiny - e) < 2 * Z.rem c s ->
   out = inl (DecimalEncoder.AsFloat d))
  /\
  (e < DecimalEncoder.Etiny -> 0 < c -> Z.rem c s <> 0 ->
   2 * Z.rem c s <= 10 ^ (DecimalEncoder.Etiny - e) ->
   out = inl (DecimalEncoder.AsInt n) /\ n * s < c < n * s + s /\ 0 <= n)
  /\
  (e < 0 -> c < 0 -> Z.rem c s <> 0 ->
   out = inl (DecimalEncoder.AsInt n) /\ c < n * s < c + s /\ n <= 0).
Proof.
  intros Hprec. cbn zeta.
  apply Z.leb_gt in Hprec.
  unfold DecimalEncoder.default. rewrite Hprec.
  unfold DecimalEncoder.mod_one_sign, DecimalEncoder.remainder,
    DecimalEncoder.to_int.
  split; [|split; [|split; [|split]]].
  - intros He. apply Z.leb_le in He. rewrite He.
    destruct (DecimalEncoder.underflows d 0); reflexivity.
  - intros He Hrem. pose proof (scale_pos d He) as Hs.
    apply Z.leb_gt in He. rewrite He, Hrem. split.
    + destruct (DecimalEncoder.underflows d 0); reflexivity.
    + pose proof (Z.quot_rem' (DecimalEncoder.coefficient d)
                    (DecimalEncoder.scale d)) as Hq.
      rewrite Hrem in Hq. lia.
  - intros He Hc Hrem Hkeep. pose proof (scale_pos d He) as Hs.
    apply Z.leb_gt in He. rewrite He.
    pose proof (Z.rem_bound_pos (DecimalEncoder.coefficient d)
                  (DecimalEncoder.scale d)) as Hb.
    assert (Hpos : 0 < Z.rem (DecimalEncoder.coefficient d)
                         (DecimalEncoder.scale d)) by lia.
    rewrite (underflows_false d Hpos Hkeep).
    rewrite (Z.sgn_pos _ Hpos). reflexivity.
  - intros He Hc Hrem Hsmall.
    assert (He0 : DecimalEncoder.exponent d < 0)
      by (unfold DecimalEncoder.Etiny, DecimalEncoder.Emin,
            DecimalEncoder.prec in He; lia).
    pose proof (scale_pos d He0) as Hs.
    apply Z.leb_gt in He0. rewrite He0.
    pose proof (Z.rem_bound_pos (DecimalEncoder.coefficient d)
                  (DecimalEncoder.scale d)) as Hb.
    pose proof (Z.quot_rem' (DecimalEncoder.coefficient d)
                  (DecimalEncoder.scale d)) as Hq.
    assert (Hpos : 0 < Z.rem (DecimalEncoder.coefficient d)
                         (DecimalEncoder.scale d)) by lia.
    rewrite (underflows_true d Hpos He Hsmall).
    split; [reflexivity|]. split; [lia|].
    apply Z.quot_pos; lia.
  - intros He Hc Hrem. pose proof (scale_pos d He) as Hs.
    apply Z.leb_gt in He. rewrite He.
    pose proof (Z.rem_bound_pos (- DecimalEncoder.coefficient d)
                  (DecimalEncoder.scale d)) as Hb.
    pose proof (Z.rem_opp_l' (DecimalEncoder.coefficient d)
                  (DecimalEncoder.scale d)) as Ho.
    pose proof (Z.quot_rem' (DecimalEncoder.coefficient d)
                  (DecimalEncoder.scale d)) as Hq.
    assert (Hneg : Z.rem (DecimalEncoder.coefficient d)
                     (DecimalEncoder.scale d) < 0) by lia.
    assert (Hlt : (0 <? (if DecimalEncoder.underflows d
                              (Z.rem (DecimalEncoder.coefficient d)
                                 (DecimalEncoder.scale d))
                         then 0
                         else Z.sgn (Z.rem (DecimalEncoder.coefficient d)
                                       (DecimalEncoder.scale d)))) = false).
    { destruct (DecimalEncoder.underflows _ _); [reflexivity|].
      rewrite (Z.sgn_neg _ Hneg). reflexivity. }
    rewrite Hlt. split; [reflexivity|]. split; [lia|].
    assert (Hn : DecimalEncoder.scale d
                 * Z.quot (DecimalEncoder.coefficient d) (DecimalEncoder.scale d)
                 < DecimalEncoder.scale d) by lia.
    nia.
Qed.

Lemma DecimalEncoder_default_by_sign_witness :
  let minus_one_and_a_half := DecimalEncoder.mkDecimal (-15) (-1) in
  let two_and_a_half := DecimalEncoder.mkDecimal 25 (-1) in
  let three := DecimalEncoder.mkDecimal 300 (-2) in
  DecimalEncoder.default (DecimalEncoder.ODecimal minus_one_and_a_half)
    = inl (DecimalEncoder.AsInt (-1)) /\
  DecimalEncoder.default (DecimalEncoder.ODecimal two_and_a_half)
    = inl (DecimalEncoder.AsFloat two_and_a_half) /\
  DecimalEncoder.default (DecimalEncoder.ODecimal three)
    = inl (DecimalEncoder.AsInt 3).
Proof.
  intros m t3 three.
  destruct (@DecimalEncoder_default_by_sign m) as [_ [_ [_ [_ H5]]]];
    [vm_compute; reflexivity|].
  destruct (@DecimalEncoder_default_by_sign t3) as [_ [_ [H3 _]]];
    [vm_compute; reflexivity|].
  destruct (@DecimalEncoder_default_by_sign three) as [_ [H2 _]];
    [vm_compute; reflexivity|].
  split; [apply H5; [reflexivity|reflexivity|vm_compute; discriminate]|].
  split; [apply H3;
          [reflexivity|reflexivity|vm_compute; discriminate
          |left; vm_compute; discriminate]|].
  apply H2; reflexivity.
Defined.

(** The smallest case of the last but one part: [1E-1000030] and every
    [1Ee] with [e] below [Etiny] is encoded as the integer 0. *)
Lemma tiny_positive_decimal_is_zero (e : Z) :
  e < DecimalEncoder.Etiny ->
  DecimalEncoder.default (DecimalEncoder.ODecimal (DecimalEncoder.mkDecimal 1 e))
  = inl (DecimalEncoder.AsInt 0).
Proof.
  intros He.
  assert (He0 : e < 0)
    by (unfold DecimalEncoder.Etiny, DecimalEncoder.Emin,
          DecimalEncoder.prec in He; lia).
  assert (Hs : 1 < 10 ^ (- e)) by (apply Z.pow_gt_1; lia).
  assert (Hu : 2 * 1 <= 10 ^ (DecimalEncoder.Etiny - e)).
  { assert (10 ^ 1 <= 10 ^ (DecimalEncoder.Etiny - e))
      by (apply Z.pow_le_mono_r; lia).
    lia. }
  unfold DecimalEncoder.default, DecimalEncoder.mod_one_sign,
    DecimalEncoder.remainder, DecimalEncoder.to_int, DecimalEncoder.scale.
  cbn [DecimalEncoder.exponent DecimalEncoder.coefficient].
  apply Z.leb_gt in He0. rewrite He0.
  rewrite Z.quot_small, Z.rem_small by lia.
  change (10 ^ DecimalEncoder.prec <=? Z.abs 0) with false. cbv iota.
  rewrite (@underflows_true (DecimalEncoder.mkDecimal 1 e) 1);
    [reflexivity|lia|exact He|exact Hu].
Qed.

(* --------------------------------------------------------------------- *)
(** ** The handshake, again; callbacks and the connection *)
(* --------------------------------------------------------------------- *)

(** X24. [nextValidId] seeds both counters with the id the server sends,
    whatever they held before, and then numbers the contract requests of
    [start] from that id: the ids it issues depend on the server's id
    and on the securities table only, so a second handshake with the
    same id issues the same request ids again. *)
Theorem nextValidId_restarts_numbering
  (secs : list Security) (orderId : Z) (self : IbApp) :
  let enabled := filter SubscriptionEnabled secs in
  let ids := map (fun i => orderId + Z.of_nat i) (seq 0 (List.length enabled)) in
  let r := nextValidId (Some secs) orderId self in
  let again := nextValidId (Some secs) orderId (state_of r) in
  result_of r = Ok tt /\
  nextValidOrderId (state_of r) = Some orderId /\
  nextValidReqId (state_of r) = Some (orderId + Z.of_nat (List.length enabled)) /\
  map fst (contract_requests (events_of r)) = ids /\
  map fst (contract_requests (events_of again)) = ids.
Proof.
  cbn zeta.
  assert (H : forall s,
             nextValidId (Some secs) orderId s =
             (Ok tt,
              with_requestedContracts
                (registered (numbered orderId secs) (requestedContracts s))
                (with_nextValidReqId
                   (Some (orderId
                          + Z.of_nat (List.length (numbered orderId secs))))
                   (with_nextValidOrderId (Some orderId) s)),
              [Answer "nextValidId";
               Log INFO (SettingNextValidOrderId orderId);
               Log INFO (StartForReadData (subRealMD s) (subHistMD s))]
              ++ map (fun kv => ReqContractDetails (fst kv) (snd kv))
                     (numbered orderId secs))).
  { intros s. unfold nextValidId, bind, emit, log, modify. cbn -[start].
    rewrite (@start_run secs _ orderId) by reflexivity.
    destruct s; reflexivity. }
  destruct (numbered_shape secs orderId) as [Hk _].
  assert (Hlen : List.length (numbered orderId secs)
                 = List.length (filter SubscriptionEnabled secs)).
  { rewrite <- (length_map fst), Hk, length_map, length_seq. reflexivity. }
  rewrite !H. unfold result_of, state_of, events_of. cbn [fst snd].
  rewrite !contract_requests_app, contract_requests_map.
  cbn [contract_requests app]. rewrite Hlen.
  destruct self; repeat split; exact Hk.
Qed.

Lemma nextValidId_quiet (items : option (list Security)) (orderId : Z) :
  quiet (nextValidId items orderId).
Proof.
  intros self. rewrite nextValidId_run. destruct items as [secs|];
    unfold events_of, silent; cbn [snd]; [|split; reflexivity].
  rewrite !count_app.
  assert (H : forall p : event -> bool,
             (forall k c, p (ReqContractDetails k c) = false) ->
             count p (map (fun kv => ReqContractDetails (fst kv) (snd kv))
                          (numbered orderId secs)) = O).
  { intros p Hp. unfold count.
    induction (numbered orderId secs) as [|kv l IH]; [reflexivity|].
    cbn [map filter]. rewrite Hp. exact IH. }
  rewrite !H by reflexivity. split; reflexivity.
Qed.

Lemma callbacks_quiet
  (update_item : string -> BarData -> bool) (cb : callback) :
  quiet (handle update_item cb).
Proof.
  pose (no_details := mkContractDetails Contract_new EmptyString).
  pose (no_bar := mkBarData EmptyString (Float 0) (Float 0) (Float 0)
                            (Float 0) 0 0).
  destruct cb; cbn [handle].
  - apply (@reply_handlers_quiet update_item reqId details no_bar 0 0 (Float 0)).
  - apply (@reply_handlers_quiet update_item reqId no_details no_bar 0 0
             (Float 0)).
  - apply (@reply_handlers_quiet update_item reqId no_details bar 0 0 (Float 0)).
  - intros self; split; reflexivity.
  - intros self; split; reflexivity.
  - apply nextValidId_quiet.
  - intros self; split; reflexivity.
  - intros self; split; reflexivity.
  - intros self; split; reflexivity.
  - intros self; split; reflexivity.
  - apply (@reply_handlers_quiet update_item tickerId no_details no_bar
             tickType 0 price).
  - apply (@reply_handlers_quiet update_item tickerId no_details no_bar
             tickType size (Float 0)).
  - apply verify_quiet.
Qed.

(** X25. None of the twelve handlers the decoder dispatches to
    ([contractDetails], [contractDetailsEnd], [historicalData],
    [historicalDataEnd], [tickSnapshotEnd], [nextValidId],
    [marketDataType], [error], [winError], [currentTime], [tickPrice],
    [tickSize]), and not [verify] either, calls [self.disconnect()] or
    reports a frame-length error, whether it returns or raises; the same
    holds for any series of them.  A decoder that dispatches to these
    callbacks therefore meets what the properties of the loop assume of
    [interpret]. *)
Theorem callbacks_never_disconnect
  (update_item : string -> BarData -> bool) (cbs : list callback)
  (self : IbApp) :
  let ev := events_of (feed update_item cbs self) in
  (forall cb s, silent (events_of (handle update_item cb s))) /\
  count is_disconnect ev = O /\ count is_bad_length ev = O.
Proof.
  cbn zeta. split; [intros cb s; apply callbacks_quiet|].
  unfold feed. revert self.
  induction cbs as [|cb cbs IH]; intros self; [split; reflexivity|].
  cbn [for_each]. unfold bind, events_of.
  destruct (callbacks_quiet update_item cb self) as [Hd Hb].
  unfold events_of in Hd, Hb.
  destruct (handle update_item cb self) as [[[[]|e] s1] ev1];
    cbn [fst snd] in *.
  - specialize (IH s1). unfold events_of in IH.
    destruct (for_each cbs (handle update_item) s1) as [[r2 s2] ev2].
    cbn [snd] in *. destruct IH as [IHd IHb].
    rewrite !count_app, Hd, Hb, IHd, IHb. split; reflexivity.
  - split; assumption.
Qed.

Lemma callbacks_never_disconnect_witness :
  let store := fun (_ : string) (_ : BarData) => true in
  let cbs := [OnNextValidId (Some [ABC]) 100;
              OnContractDetails 100 ABC_details;
              OnError; OnWinError; OnVerify;
              OnHistoricalData 102 a_bar;
              OnTickSize 5 4 300; OnContractDetailsEnd 100] in
  let r := feed store cbs (IbApp_init true true 0) in
  result_of r = Raise (KeyError 5) /\
  count is_request (events_of r) = 7%nat /\
  count is_disconnect (events_of r) = O /\
  count is_bad_length (events_of r) = O.
Proof.
  intros store cbs.
  destruct (@callbacks_never_disconnect store cbs (IbApp_init true true 0))
    as [_ [Hd Hb]].
  split; [reflexivity|]. split; [reflexivity|].
  split; [exact Hd|exact Hb].
Defined.

(** The last retry still counts: a value on the 11th invocation. *)
Lemma reliable_returns_first_value_witness :
  let l := Utils.reliable (Utils.stub 10 7) 0%nat in
  Utils.result l = Some 7 /\
  exists k, (k <= 10)%nat /\
            Utils.answer (Utils.stub 10 7) k 0%nat = Some 7 /\
            (forall i, (i < k)%nat ->
               Utils.answer (Utils.stub 10 7) i 0%nat = None) /\
            Utils.invocations (Utils.trace l) = S k.
Proof.
  intros l.
  destruct (@reliable_returns_first_value Z nat (Utils.stub 10 7) 0%nat)
    as [_ H].
  assert (E : Utils.result l = Some 7) by (vm_compute; reflexivity).
  split; [exact E|]. apply H. exact E.
Defined.
